(** * AnyStreamPro backend: format catalog, download-and-mux pipeline, cleanup

    A shallow embedding of [main.py] and the properties of its handlers.

    Conventions of the embedding
    - Python text that the program only compares with its own literals,
      concatenates or passes on is a [string] of 8-bit characters. The
      title of the extracted metadata is a [utext], the sequence of its
      Unicode code points: its characters decide whether the headers of
      the response can be encoded.
    - Bytes (the content of a file, the error output of the combiner) are
      lists of [Byte.byte].
    - A JSON object of the extraction engine is a record whose fields are
      three-valued ([field]): the key is missing, it holds [None], or it
      holds a value of the field's type.
    - The workspace directory [TEMP_DIR] is a finite map from the names of
      its direct children to directory entries.
    - The extraction engine (yt-dlp) and the combiner (ffmpeg) are external:
      they are the fields of a [runtime] record and may change the
      workspace in any way.
    - Exceptions are values: fallible code returns a [result].
    - Numbers are integers, except the bit rate [tbr], a rational.
    - A handler maps the [world] it starts in to a response and the world
      it leaves; the world also records which calls were made, in order. *)

From Stdlib Require Import ZArith QArith String Ascii List Lia.
From Stdlib Require Import Sorting.Permutation Sorting.Sorted.
From stdpp Require Import gmap strings list fin_maps pretty.

Local Open Scope string_scope.
Local Open Scope list_scope.
Local Open Scope Z_scope.

(* ===================================================================== *)
(** ** Text *)
(* ===================================================================== *)

Definition chars (s : string) : list ascii := list_ascii_of_string s.
Definition text (l : list ascii) : string := string_of_list_ascii l.

(** Unicode text: the sequence of its code points. *)
Abbreviation utext := (list N).

(** A literal of the program as Unicode text. *)
Definition lit (s : string) : utext := N_of_ascii <$> chars s.

(** The character class of the pattern in [sanitize_filename], by code:
    less-than, greater-than, colon, double quote, slash, backslash, bar,
    question mark, star. *)
Definition INVALID_CHARS : list N :=
  N_of_ascii <$>
  [ "060"; "062"; "058"; "034"; "047"; "092"; "124"; "063"; "042" ]%char.

Definition is_invalid (c : N) : bool := bool_decide (c ∈ INVALID_CHARS).

(** [re.sub(class, '', name)]: every character of the class is replaced
    by the empty text. *)
Definition re_sub_invalid (name : utext) : utext :=
  filter (λ c, is_invalid c = false) name.

(** [s[:n]] on an 8-bit text. *)
Definition slice_to (n : nat) (s : string) : string := text (take n (chars s)).

(** [re.sub(...)[:200]] *)
Definition sanitize_filename (name : utext) : utext :=
  take 200 (re_sub_invalid name).

(** [s.encode("latin-1")] succeeds when no code point is above 255. *)
Definition latin1 (s : utext) : bool := forallb (λ c, (c <=? 255)%N) s.

(** [s.strip()]: Python's white space among the 8-bit characters. *)
Definition is_space (c : ascii) : bool :=
  let n := nat_of_ascii c in
  ((9 <=? n) && (n <=? 13) || (28 <=? n) && (n <=? 32)
   || (n =? 133) || (n =? 160))%nat.

Fixpoint lstrip (l : list ascii) : list ascii :=
  match l with
  | c :: l' => if is_space c then lstrip l' else l
  | [] => []
  end.

Definition strip (s : string) : string :=
  text (rev (lstrip (rev (lstrip (chars s))))).

(* ===================================================================== *)
(** ** Records of the extraction engine *)
(* ===================================================================== *)

(** One key of a JSON object: missing, holding [None], or holding a value. *)
Inductive field (A : Type) : Type :=
| Missing
| Null
| Has (a : A).
Arguments Missing {A}.
Arguments Null {A}.
Arguments Has {A} a.

(** [d.get(k)]: [None] unless the key holds a value. *)
Definition get {A} (f : field A) : option A :=
  match f with Has a => Some a | _ => None end.

(** Truth value of what [d.get(k)] returned. *)
Definition truthy_str (v : option string) : bool :=
  match v with Some s => negb (String.eqb s EmptyString) | None => false end.
Definition truthy_int (v : option Z) : bool :=
  match v with Some z => negb (z =? 0) | None => false end.
Definition truthy_num (v : option Q) : bool :=
  match v with Some q => negb (Qnum q =? 0) | None => false end.

(** [int(x)] on a number: truncation towards zero. *)
Definition int_of (q : Q) : Z := Z.quot (Qnum q) (Z.pos (Qden q)).

(** [str(d.get(k, '?'))] as an f-string renders it. *)
Definition fmt_or_question (f : field Z) : string :=
  match f with
  | Missing => "?"
  | Null => "None"
  | Has z => pretty z
  end.

(** An entry of the engine's [formats] list. *)
Record raw_format : Type := {
  f_format_id : field string;
  f_ext : field string;
  f_vcodec : field string;
  f_acodec : field string;
  f_height : field Z;
  f_width : field Z;
  f_resolution : field string;
  f_tbr : field Q;
  f_format_note : field string;
  f_filesize : field Z;
}.

Record thumb : Type := { t_url : field string }.

(** The dictionary returned by [extract_info]. *)
Record info : Type := {
  i_title : field utext;
  i_thumbnail : field string;
  i_thumbnails : field (list thumb);
  i_formats : field (list raw_format);
  i_url : field string;
  i_ext : field string;
  i_width : field Z;
  i_height : field Z;
  i_filesize : field Z;
}.

(* ===================================================================== *)
(** ** Exceptions *)
(* ===================================================================== *)

(** Exceptions raised by the interpreter and by pydantic. *)
Inductive pyerr : Type :=
| KeyError (key : string)
| NotIterable
| NotText
| ValidationError (model : string)
| OSError (path : string)
| UnicodeDecodeError (data : list Byte.byte)
| UnicodeEncodeError (s : utext).

Inductive exn : Type :=
| EngineError (msg : string)   (* raised inside yt-dlp *)
| PlainException (msg : string) (* [raise Exception(msg)] in a handler *)
| Interp (e : pyerr).

Inductive result (A : Type) : Type :=
| Ok (a : A)
| Raise (e : exn).
Arguments Ok {A} a.
Arguments Raise {A} e.

(** Sequencing: the first exception raised ends the computation. *)
#[global] Instance result_bind : MBind result := λ A B k r,
  match r with Ok a => k a | Raise e => Raise e end.

(* ===================================================================== *)
(** ** Response models *)
(* ===================================================================== *)

Record FormatInfo : Type := {
  format_id : string;
  ext : string;
  resolution : string;
  note : string;
  type : string;
  filesize : option Z;
  height : Z;
}.

Record FormatsResponse : Type := {
  status : string;
  title : utext;
  thumbnail : string;
  formats : list FormatInfo;
}.

(** pydantic's check of one argument against the declared type: a value of
    the type passes, [None] passes only where the type is [Optional]. *)
Definition as_str {A} (model : string) (f : field A) (default : field A)
  : result A :=
  match (match f with Missing => default | _ => f end) with
  | Has s => Ok s
  | _ => Raise (Interp (ValidationError model))
  end.

Definition as_int (model : string) (v : option Z) : result Z :=
  match v with
  | Some z => Ok z
  | None => Raise (Interp (ValidationError model))
  end.

(* ===================================================================== *)
(** ** The catalog: body of [get_formats] after [extract_info] *)
(* ===================================================================== *)

Definition has_video (f : raw_format) : bool :=
  truthy_str (get (f_vcodec f))
  && negb (bool_decide (get (f_vcodec f) = Some "none")).

Definition has_audio (f : raw_format) : bool :=
  truthy_str (get (f_acodec f))
  && negb (bool_decide (get (f_acodec f) = Some "none")).

(** The [if/elif/elif/else: continue] chain; [None] is [continue]. *)
Definition type_label (f : raw_format) : option string :=
  if has_video f && negb (has_audio f) then Some "video"
  else if has_audio f && negb (has_video f) then Some "audio"
  else if has_video f && has_audio f then Some "combined"
  else None.

(** [f.get('height') or 0] *)
Definition height_or_0 (f : raw_format) : Z :=
  if truthy_int (get (f_height f)) then default 0 (get (f_height f)) else 0.

(** The note: [f.get('format_note', '')], with the bit rate appended when
    [tbr] is truthy. [None] is the value [None]. *)
Definition note_of (f : raw_format) : option string :=
  let note := match f_format_note f with
              | Missing => Some EmptyString
              | Null => None
              | Has s => Some s
              end in
  if truthy_num (get (f_tbr f)) then
    Some (strip (default "None" note +:+ " (" +:+
                 pretty (int_of (default 0%Q (get (f_tbr f)))) +:+ "kbps)"))
  else note.

(** [f.get('resolution') or f"{f.get('width','?')}x{height}"] *)
Definition resolution_of (f : raw_format) : string :=
  if truthy_str (get (f_resolution f)) then default EmptyString (get (f_resolution f))
  else fmt_or_question (f_width f) +:+ "x" +:+ pretty (height_or_0 f).

(** The [FormatInfo(...)] call of the loop body. *)
Definition make_format (f : raw_format) (label : string) : result FormatInfo :=
  fid ← match f_format_id f with
        | Missing => Raise (Interp (KeyError "format_id"))
        | v => as_str "FormatInfo" v Missing
        end;
  e ← as_str "FormatInfo" (f_ext f) (Has EmptyString);
  n ← match note_of f with
      | Some n => Ok n
      | None => Raise (Interp (ValidationError "FormatInfo"))
      end;
  Ok {| format_id := fid; ext := e; resolution := resolution_of f;
        note := n; type := label; filesize := get (f_filesize f);
        height := height_or_0 f |}.

(** [for f in raw_formats: ...], appending to [formats]. *)
Fixpoint collect (raw : list raw_format) (formats : list FormatInfo)
  : result (list FormatInfo) :=
  match raw with
  | [] => Ok formats
  | f :: raw' =>
      match type_label f with
      | None => collect raw' formats
      | Some label =>
          d ← make_format f label;
          collect raw' (formats ++ [d])
      end
  end.

(** The synthetic format for a result with a direct url and no formats. *)
Definition default_format (i : info) : result FormatInfo :=
  e ← as_str "FormatInfo" (i_ext i) (Has "mp4");
  h ← as_int "FormatInfo"
        (match i_height i with Missing => Some 0 | v => get v end);
  Ok {| format_id := "default"; ext := e;
        resolution := fmt_or_question (i_width i) +:+ "x" +:+
                      fmt_or_question (i_height i);
        note := "Default Source"; type := "combined";
        filesize := get (i_filesize i); height := h |}.

(** [list.sort(key=..., reverse=True)]: Python's sort is stable, also in
    reverse; modelled by insertion from the right, a new element going in
    front of the first one whose key is not larger. *)
Fixpoint insert_reverse {A} (key : A → Z) (x : A) (l : list A) : list A :=
  match l with
  | [] => [x]
  | y :: l' => if key x <? key y then y :: insert_reverse key x l' else x :: l
  end.

Definition sort_reverse {A} (key : A → Z) (l : list A) : list A :=
  foldr (insert_reverse key) [] l.

(** Thumbnail: the explicit field, else the url of the last thumbnail. *)
Definition thumbnail_of (i : info) : option string :=
  if negb (truthy_str (get (i_thumbnail i)))
     && match get (i_thumbnails i) with Some (_ :: _) => true | _ => false end
  then
    match get (i_thumbnails i) with
    | Some ts => match last ts with Some t => get (t_url t) | None => None end
    | None => None
    end
  else get (i_thumbnail i).

(** [info.get('formats', [])]; [None] is the value [None]. *)
Definition raw_formats_of (i : info) : option (list raw_format) :=
  match i_formats i with
  | Missing => Some []
  | Null => None
  | Has l => Some l
  end.

(** The list [formats] as the loop leaves it, before it is sorted. *)
Definition unsorted_formats (i : info) : result (list FormatInfo) :=
  let raw_formats := raw_formats_of i in
  formats0 ←
    match raw_formats with
    | None | Some [] =>
        if truthy_str (get (i_url i)) then d ← default_format i; Ok [d]
        else Ok []
    | Some (_ :: _) => Ok []
    end;
  raw ← match raw_formats with
        | Some l => Ok l
        | None => Raise (Interp NotIterable)
        end;
  collect raw formats0.

Definition catalog (i : info) : result FormatsResponse :=
  formats1 ← unsorted_formats i;
  t ← as_str "FormatsResponse" (i_title i) (Has (lit "Unknown Title"));
  Ok {| status := "success"; title := t;
        thumbnail := if truthy_str (thumbnail_of i)
                     then default EmptyString (thumbnail_of i) else EmptyString;
        formats := sort_reverse height formats1 |}.

(** The classification table of the specification, by (has video, has
    audio); [None]: the record is dropped. *)
Definition classification_table (has_v has_a : bool) : option string :=
  match has_v, has_a with
  | true, false => Some "video"
  | false, true => Some "audio"
  | true, true => Some "combined"
  | false, false => None
  end.

(* ===================================================================== *)
(** ** The workspace directory *)
(* ===================================================================== *)

(** A regular file. [locked] files are those the operating system refuses
    to remove or overwrite (in use elsewhere, immutable): [unlink] and
    opening for writing raise on them. *)
Record file : Type := {
  mtime : Z;
  content : list Byte.byte;
  locked : bool;
}.

Inductive entry : Type :=
| Dir (modified : Z)
| Regular (f : file).

(** The children of [TEMP_DIR], by name. *)
Abbreviation fsys := (gmap string entry).

Definition exists_ (name : string) (fs : fsys) : bool :=
  bool_decide (is_Some (fs !! name)).

Definition is_file (name : string) (fs : fsys) : bool :=
  match fs !! name with Some (Regular _) => true | _ => false end.

(** [f.stat().st_mtime] *)
Definition st_mtime (name : string) (fs : fsys) : result Z :=
  match fs !! name with
  | Some (Regular f) => Ok (mtime f)
  | Some (Dir modified) => Ok modified
  | None => Raise (Interp (OSError name))
  end.

(** [f.unlink()] *)
Definition unlink (name : string) (fs : fsys) : result fsys :=
  match fs !! name with
  | Some (Regular f) =>
      if locked f then Raise (Interp (OSError name)) else Ok (delete name fs)
  | _ => Raise (Interp (OSError name))
  end.

(** [try: f.unlink() except: pass] *)
Definition try_unlink (name : string) (fs : fsys) : fsys :=
  match unlink name fs with Ok fs' => fs' | Raise _ => fs end.

(** [with open(name, "w") as f: f.write(s)] at time [now]. *)
Definition write_text (name s : string) (now : Z) (fs : fsys) : result fsys :=
  match fs !! name with
  | Some (Dir _) => Raise (Interp (OSError name))
  | Some (Regular f) =>
      if locked f then Raise (Interp (OSError name))
      else Ok (<[name := Regular {| mtime := now;
                                    content := list_byte_of_string s;
                                    locked := false |}]> fs)
  | None =>
      Ok (<[name := Regular {| mtime := now;
                               content := list_byte_of_string s;
                               locked := false |}]> fs)
  end.

(** [TEMP_DIR.glob("*")] *)
Definition glob_all (fs : fsys) : list string := (map_to_list fs).*1.

(** What the handlers call, in order. *)
Inductive event : Type :=
| Swept
| Extracted (url : string)
| Downloaded (selector : string)
| Combined.

(** The state a request runs in: the workspace, the clock, the process
    environment and the record of calls made so far. *)
Record world : Type := {
  fs : fsys;
  now : Z;                          (* time.time() *)
  COOKIES_CONTENT : option string;  (* os.environ.get('COOKIES_CONTENT') *)
  local_cookies : bool;             (* os.path.exists("cookies.txt") *)
  calls : list event;
}.

Definition with_fs (w : world) (fs' : fsys) : world :=
  {| fs := fs'; now := now w; COOKIES_CONTENT := COOKIES_CONTENT w;
     local_cookies := local_cookies w; calls := calls w |}.

Definition called (w : world) (e : event) : world :=
  {| fs := fs w; now := now w; COOKIES_CONTENT := COOKIES_CONTENT w;
     local_cookies := local_cookies w; calls := calls w ++ [e] |}.

(** One round of the loop of [cleanup_old_files]. *)
Definition sweep_one (now : Z) (fs : fsys) (name : string) : fsys :=
  if is_file name fs
     && match st_mtime name fs with
        | Ok m => now - m >? 3600
        | Raise _ => false
        end
  then try_unlink name fs
  else fs.

Definition sweep (now : Z) (names : list string) (fs : fsys) : fsys :=
  foldl (sweep_one now) fs names.

Definition cleanup_old_files (w : world) : world :=
  called (with_fs w (sweep (now w) (glob_all (fs w)) (fs w))) Swept.

(* ===================================================================== *)
(** ** External collaborators *)
(* ===================================================================== *)

(** The options dictionary of [yt_dlp.YoutubeDL]. *)
Record ydl_opts : Type := {
  o_format : option string;
  o_outtmpl : option string;
  o_skip_download : bool;
  o_quiet : bool;
  o_no_warnings : bool;
  o_logtostderr : bool;
  o_proxy : option string;
  o_cookiefile : option string;
}.

(** yt-dlp, ffmpeg, the interpreter's codec for bytes and the texts of its
    own exceptions. Each call of the engine and of the combiner sees the
    workspace and returns it, possibly changed. *)
Record runtime : Type := {
  extract_info : ydl_opts → string → fsys → result info * fsys;
  download : ydl_opts → string → fsys → result unit * fsys;
  (* [subprocess.run(cmd, capture_output=True)]: return code and the bytes
     of stderr *)
  run_ffmpeg : list string → fsys → result (Z * list Byte.byte) * fsys;
  (* [bytes.decode()]: the text of bytes that are valid UTF-8, [None] for
     bytes that are not, on which [decode] raises [UnicodeDecodeError] *)
  decode : list Byte.byte → option string;
  exc_text : pyerr → string;
  TEMP_DIR : string;
}.

(** [str(e)] *)
Definition str_exn (rt : runtime) (e : exn) : string :=
  match e with
  | EngineError msg | PlainException msg => msg
  | Interp p => exc_text rt p
  end.

(** [str(TEMP_DIR / name)] *)
Definition path_str (rt : runtime) (name : string) : string :=
  TEMP_DIR rt +:+ "/" +:+ name.

(* ===================================================================== *)
(** ** Requests and responses *)
(* ===================================================================== *)

Record URLRequest : Type := {
  u_url : string;
  u_proxy : option string;
}.

Record DownloadRequest : Type := {
  url : string;
  video_format : string;
  audio_format : string;
  proxy : option string;
}.

(** [request.proxy if request.proxy else None] *)
Definition proxy_opt (p : option string) : option string :=
  if truthy_str p then p else None.

(** The generator object made by [file_iterator()]: not yet started,
    suspended at the [yield] with the file open and [rest] unread, or
    finished. *)
Inductive generator : Type :=
| Unstarted (output_file : string)
| Suspended (output_file : string) (rest : list Byte.byte)
| Finished.

Inductive response : Type :=
| Formats (r : FormatsResponse)
| HTTPException (status_code : Z) (detail : string)
| StreamingResponse (body : generator) (media_type : string)
                    (headers : gmap string utext)
| Unhandled (e : exn).   (* an exception that leaves the handler *)

(* ===================================================================== *)
(** ** The result streamer: [file_iterator] *)
(* ===================================================================== *)

(** [1024 * 1024], the size passed to [f.read]. *)
Definition CHUNK : nat := Z.to_nat (1024 * 1024).

(** What a call of [next] on the generator gives. *)
Inductive outcome : Type :=
| Yield (chunk : list Byte.byte)
| StopIteration
| Raised (e : exn).

(** The loop [while chunk := f.read(CHUNK): yield chunk] with the file open
    and [rest] unread. An empty read ends the loop and the [with] block;
    then [try: output_file.unlink() except: pass] runs and the generator
    returns. *)
Definition resume (output_file : string) (rest : list Byte.byte) (fs : fsys)
  : outcome * generator * fsys :=
  match take CHUNK rest with
  | [] => (StopIteration, Finished, try_unlink output_file fs)
  | chunk => (Yield chunk, Suspended output_file (drop CHUNK rest), fs)
  end.

(** [next(gen)]. The first call opens the file. *)
Definition next (g : generator) (fs : fsys) : outcome * generator * fsys :=
  match g with
  | Unstarted output_file =>
      match fs !! output_file with
      | Some (Regular f) => resume output_file (content f) fs
      | _ => (Raised (Interp (OSError output_file)), Finished, fs)
      end
  | Suspended output_file rest => resume output_file rest fs
  | Finished => (StopIteration, Finished, fs)
  end.

(** [gen.close()], what the server does to the body when the client goes
    away. In a suspended generator [GeneratorExit] is raised at the
    [yield]: the [with] block closes the file and the exception leaves the
    generator, so the statements after the [with] block do not run. A
    generator that was never started just ends. *)
Definition close (g : generator) (fs : fsys) : generator * fsys :=
  match g with
  | Unstarted _ => (Finished, fs)
  | Suspended _ _ => (Finished, fs)
  | Finished => (Finished, fs)
  end.

(** A consumer that takes at most [n] items and then goes away. *)
Fixpoint consume (n : nat) (g : generator) (fs : fsys)
  : list (list Byte.byte) * generator * fsys :=
  match n with
  | O => let '(g', fs') := close g fs in ([], g', fs')
  | S n' =>
      match next g fs with
      | (Yield chunk, g', fs') =>
          let '(chunks, g'', fs'') := consume n' g' fs' in
          (chunk :: chunks, g'', fs'')
      | (_, g', fs') => ([], g', fs')
      end
  end.

(* ===================================================================== *)
(** ** Handlers *)
(* ===================================================================== *)

(** The cookie file: written from the environment; [get_formats] also
    falls back on a local [cookies.txt]. *)
Definition cookies (rt : runtime) (fallback : bool) (w : world)
  : result (option string) * world :=
  if truthy_str (COOKIES_CONTENT w) then
    match write_text "cookies.txt" (default EmptyString (COOKIES_CONTENT w))
                     (now w) (fs w) with
    | Ok fs' => (Ok (Some (path_str rt "cookies.txt")), with_fs w fs')
    | Raise e => (Raise e, w)
    end
  else if fallback && local_cookies w then (Ok (Some "cookies.txt"), w)
  else (Ok None, w).

Definition get_formats (rt : runtime) (request : URLRequest) (w : world)
  : response * world :=
  let w := cleanup_old_files w in
  match cookies rt true w with
  | (Raise e, w) => (Unhandled e, w)
  | (Ok cookie_file, w) =>
      let ydl_opts :=
        {| o_format := None; o_outtmpl := None; o_skip_download := true;
           o_quiet := false; o_no_warnings := false; o_logtostderr := true;
           o_proxy := proxy_opt (u_proxy request);
           o_cookiefile := cookie_file |} in
      let '(r, fs') := extract_info rt ydl_opts (u_url request) (fs w) in
      let w := called (with_fs w fs') (Extracted (u_url request)) in
      match r ≫= catalog with
      | Ok r => (Formats r, w)
      | Raise e =>
          (HTTPException 400 ("Extraction failed: " +:+ str_exn rt e), w)
      end
  end.

(** [sanitize_filename(info.get('title', 'video'))]; [re.sub] raises on
    [None]. *)
Definition title_of (i : info) : result utext :=
  match i_title i with
  | Missing => Ok (sanitize_filename (lit "video"))
  | Null => Raise (Interp NotText)
  | Has s => Ok (sanitize_filename s)
  end.

Definition opts_info (request : DownloadRequest) (cookie_file : option string)
  : ydl_opts :=
  {| o_format := None; o_outtmpl := None; o_skip_download := true;
     o_quiet := true; o_no_warnings := true; o_logtostderr := false;
     o_proxy := proxy_opt (proxy request); o_cookiefile := cookie_file |}.

Definition opts_stream (rt : runtime) (request : DownloadRequest)
  (cookie_file : option string) (selector file_name : string) : ydl_opts :=
  {| o_format := Some selector; o_outtmpl := Some (path_str rt file_name);
     o_skip_download := false;
     o_quiet := true; o_no_warnings := true; o_logtostderr := false;
     o_proxy := proxy_opt (proxy request); o_cookiefile := cookie_file |}.

Definition ffmpeg_cmd (rt : runtime) (video_file audio_file output_file : string)
  : list string :=
  [ "ffmpeg"; "-y"; "-i"; path_str rt video_file; "-i"; path_str rt audio_file;
    "-c:v"; "copy"; "-c:a"; "aac"; "-strict"; "experimental";
    path_str rt output_file ].

(** [if f.exists(): f.unlink()] *)
Definition unlink_if_exists (name : string) (fs : fsys) : result fsys :=
  if exists_ name fs then unlink name fs else Ok fs.

(** The body of the [try] of [download_merged] up to the [return]
    statement: the title on success, the exception otherwise. When the
    combiner leaves with a status other than 0, the message of the
    exception is built from its decoded error output, and decoding raises
    on bytes that are not valid UTF-8. *)
Definition pipeline (rt : runtime) (request : DownloadRequest)
  (video_file audio_file output_file : string) (cookie_file : option string)
  (w : world) : result utext * world :=
  let '(r, fs1) := extract_info rt (opts_info request cookie_file)
                     (url request) (fs w) in
  let w := called (with_fs w fs1) (Extracted (url request)) in
  match r ≫= title_of with
  | Raise e => (Raise e, w)
  | Ok title =>
  let '(r, fs2) := download rt (opts_stream rt request cookie_file
                                  (video_format request) video_file)
                     (url request) (fs w) in
  let w := called (with_fs w fs2) (Downloaded (video_format request)) in
  match r with
  | Raise e => (Raise e, w)
  | Ok _ =>
  let '(r, fs3) := download rt (opts_stream rt request cookie_file
                                  (audio_format request) audio_file)
                     (url request) (fs w) in
  let w := called (with_fs w fs3) (Downloaded (audio_format request)) in
  match r with
  | Raise e => (Raise e, w)
  | Ok _ =>
  let '(r, fs4) := run_ffmpeg rt (ffmpeg_cmd rt video_file audio_file output_file)
                     (fs w) in
  let w := called (with_fs w fs4) Combined in
  match r with
  | Raise e => (Raise e, w)
  | Ok (returncode, stderr) =>
  if negb (returncode =? 0) then
    match decode rt stderr with
    | Some message =>
        (Raise (PlainException ("FFmpeg failed: " +:+ message)), w)
    | None => (Raise (Interp (UnicodeDecodeError stderr)), w)
    end
  else
  match unlink_if_exists video_file (fs w) with
  | Raise e => (Raise e, w)
  | Ok fs5 =>
  match unlink_if_exists audio_file fs5 with
  | Raise e => (Raise e, with_fs w fs5)
  | Ok fs6 => (Ok title, with_fs w fs6)
  end end end end end end.

(** The [except] branch: [if f.exists(): try: f.unlink() except: pass]. *)
Definition purge_one (fs : fsys) (name : string) : fsys :=
  if exists_ name fs then try_unlink name fs else fs.

Definition quote : string := String "034"%char EmptyString.

(** The constructor of the response turns the headers into bytes, in the
    order of the dictionary, each value by [encode("latin-1")]: the first
    value with a code point above 255 raises [UnicodeEncodeError]. *)
Fixpoint encode_headers (headers : list (string * utext)) : result unit :=
  match headers with
  | [] => Ok ()
  | (_, value) :: headers' =>
      if latin1 value then encode_headers headers'
      else Raise (Interp (UnicodeEncodeError value))
  end.

(** [StreamingResponse(body, media_type=..., headers=...)] *)
Definition streaming_response (body : generator) (media_type : string)
  (headers : list (string * utext)) : result response :=
  _ ← encode_headers headers;
  Ok (StreamingResponse body media_type (list_to_map headers)).

(** The [try] of [download_merged]: the stages, then the [return]
    statement, which builds the response. *)
Definition attempt (rt : runtime) (request : DownloadRequest)
  (video_file audio_file output_file : string) (cookie_file : option string)
  (w : world) : result response * world :=
  match pipeline rt request video_file audio_file output_file cookie_file w with
  | (Ok title, w) =>
      let filename := title ++ lit ".mp4" in
      (streaming_response (Unstarted output_file) "video/mp4"
         [ ("Content-Disposition",
            lit "attachment; filename=" ++ lit quote ++ filename ++ lit quote);
           ("Content-Type", lit "video/mp4") ], w)
  | (Raise e, w) => (Raise e, w)
  end.

(** [uuid] is the text of [uuid.uuid4()]. *)
Definition download_merged (rt : runtime) (request : DownloadRequest)
  (uuid : string) (w : world) : response * world :=
  let job_id := slice_to 8 uuid in
  let video_file := job_id +:+ "_video.mp4" in
  let audio_file := job_id +:+ "_audio.m4a" in
  let output_file := job_id +:+ "_merged.mp4" in
  match cookies rt false w with
  | (Raise e, w) => (Unhandled e, w)
  | (Ok cookie_file, w) =>
      match attempt rt request video_file audio_file output_file cookie_file w with
      | (Ok r, w) => (r, w)
      | (Raise e, w) =>
          (HTTPException 500 (str_exn rt e),
           with_fs w (foldl purge_one (fs w)
                        [video_file; audio_file; output_file]))
      end
  end.

(* ===================================================================== *)
(** ** Vocabulary of the statements *)
(* ===================================================================== *)

(** How a descriptor relates to the record it was built from. *)
Definition built_from (f : raw_format) (d : FormatInfo) : Prop :=
  classification_table (has_video f) (has_audio f) = Some (type d)
  ∧ f_format_id f = Has (format_id d)
  ∧ height d = height_or_0 f.

(** The records the table does not drop. *)
Definition kept (f : raw_format) : Prop :=
  classification_table (has_video f) (has_audio f) ≠ None.

#[global] Instance kept_dec f : Decision (kept f).
Proof. unfold kept. apply _. Defined.

(** Sorted by [key], largest first. *)
Definition descending {A} (key : A → Z) : list A → Prop :=
  StronglySorted (λ a b, key b ≤ key a).

(** The entries [unlink] removes. *)
Definition deletable (e : option entry) : bool :=
  match e with
  | Some (Regular f) => negb (locked f)
  | _ => false
  end.

(** The entries the sweep tries to remove at time [now]: regular files
    last modified more than 3600 seconds ago. *)
Definition stale (now : Z) (e : option entry) : bool :=
  match e with
  | Some (Regular f) => now - mtime f >? 3600
  | _ => false
  end.

#[global] Instance event_eq_dec : EqDecision event.
Proof. solve_decision. Defined.

(** The pipeline stages of a download request and the exception each
    fails with: the metadata fetch, the video download, the audio download,
    and the combiner leaving with a status other than 0. For the combiner
    the exception depends on its error output: the text of valid UTF-8
    goes into the message, other bytes make decoding raise. *)
Inductive stage_failure (rt : runtime) (request : DownloadRequest)
  (video_file audio_file output_file : string) (cookie_file : option string)
  (w : world) : exn → Prop :=
| metadata_fails e fs1 :
    extract_info rt (opts_info request cookie_file) (url request) (fs w)
    = (Raise e, fs1) →
    stage_failure rt request video_file audio_file output_file cookie_file w e
| video_fails i fs1 e fs2 :
    extract_info rt (opts_info request cookie_file) (url request) (fs w)
    = (Ok i, fs1) →
    i_title i ≠ Null →
    download rt (opts_stream rt request cookie_file (video_format request)
                   video_file) (url request) fs1 = (Raise e, fs2) →
    stage_failure rt request video_file audio_file output_file cookie_file w e
| audio_fails i fs1 fs2 e fs3 :
    extract_info rt (opts_info request cookie_file) (url request) (fs w)
    = (Ok i, fs1) →
    i_title i ≠ Null →
    download rt (opts_stream rt request cookie_file (video_format request)
                   video_file) (url request) fs1 = (Ok (), fs2) →
    download rt (opts_stream rt request cookie_file (audio_format request)
                   audio_file) (url request) fs2 = (Raise e, fs3) →
    stage_failure rt request video_file audio_file output_file cookie_file w e
| combiner_fails i fs1 fs2 fs3 returncode stderr fs4 message :
    extract_info rt (opts_info request cookie_file) (url request) (fs w)
    = (Ok i, fs1) →
    i_title i ≠ Null →
    download rt (opts_stream rt request cookie_file (video_format request)
                   video_file) (url request) fs1 = (Ok (), fs2) →
    download rt (opts_stream rt request cookie_file (audio_format request)
                   audio_file) (url request) fs2 = (Ok (), fs3) →
    run_ffmpeg rt (ffmpeg_cmd rt video_file audio_file output_file) fs3
    = (Ok (returncode, stderr), fs4) →
    returncode ≠ 0 →
    decode rt stderr = Some message →
    stage_failure rt request video_file audio_file output_file cookie_file w
      (PlainException ("FFmpeg failed: " +:+ message))
| combiner_fails_undecodable i fs1 fs2 fs3 returncode stderr fs4 :
    extract_info rt (opts_info request cookie_file) (url request) (fs w)
    = (Ok i, fs1) →
    i_title i ≠ Null →
    download rt (opts_stream rt request cookie_file (video_format request)
                   video_file) (url request) fs1 = (Ok (), fs2) →
    download rt (opts_stream rt request cookie_file (audio_format request)
                   audio_file) (url request) fs2 = (Ok (), fs3) →
    run_ffmpeg rt (ffmpeg_cmd rt video_file audio_file output_file) fs3
    = (Ok (returncode, stderr), fs4) →
    returncode ≠ 0 →
    decode rt stderr = None →
    stage_failure rt request video_file audio_file output_file cookie_file w
      (Interp (UnicodeDecodeError stderr)).

(** A handler part that records calls, none of them a sweep. *)
Definition adds_no_sweep (w w' : world) : Prop :=
  ∃ later, calls w' = calls w ++ later ∧ Swept ∉ later.


(** The properties of the chunk sequence read from [rest]. *)
Definition chunked (rest : list Byte.byte) (chunks : list (list Byte.byte)) : Prop :=
  concat chunks = rest
  ∧ Forall (λ c, c ≠ [] ∧ (length c ≤ CHUNK)%nat) chunks
  ∧ ∀ k c, chunks !! k = Some c → (S k < length chunks)%nat → length c = CHUNK.


(* ===================================================================== *)
(** ** Example inputs *)
(* ===================================================================== *)

Definition example_format (id : string) (vcodec acodec : field string)
  (h : field Z) : raw_format :=
  {| f_format_id := Has id; f_ext := Has "mp4"; f_vcodec := vcodec;
     f_acodec := acodec; f_height := h; f_width := Missing;
     f_resolution := Missing; f_tbr := Missing; f_format_note := Missing;
     f_filesize := Missing |}.

Definition example_raw : list raw_format :=
  [ example_format "v720" (Has "avc1") (Has "none") (Has 720);
    example_format "c1080" (Has "avc1") (Has "mp4a") (Has 1080);
    example_format "v480" (Has "vp9") Missing (Has 480);
    example_format "a" (Has "none") (Has "mp4a") Missing;
    example_format "x" (Has "none") Null (Has 360);
    example_format "w720" (Has "vp9") Null (Has 720) ].

Definition example_info : info :=
  {| i_title := Has (lit "My:Video/Title*"); i_thumbnail := Missing;
     i_thumbnails := Missing; i_formats := Has example_raw; i_url := Missing;
     i_ext := Missing; i_width := Missing; i_height := Missing;
     i_filesize := Missing |}.

Definition example_descriptor (id label : string) (h : Z) : FormatInfo :=
  {| format_id := id; ext := "mp4"; resolution := "?x" +:+ pretty h;
     note := EmptyString; type := label; filesize := None; height := h |}.

Definition example_catalog : FormatsResponse :=
  {| status := "success"; title := lit "My:Video/Title*";
     thumbnail := EmptyString;
     formats := [ example_descriptor "c1080" "combined" 1080;
                  example_descriptor "v720" "video" 720;
                  example_descriptor "w720" "video" 720;
                  example_descriptor "v480" "video" 480;
                  example_descriptor "a" "audio" 0 ] |}.

(** A result with a direct url and no [formats] key; the width is unknown. *)
Definition fallback_info : info :=
  {| i_title := Has (lit "Clip"); i_thumbnail := Missing;
     i_thumbnails := Missing;
     i_formats := Missing; i_url := Has "https://cdn.example/clip.mp4";
     i_ext := Missing; i_width := Missing; i_height := Has 720;
     i_filesize := Has 1000 |}.

Definition fallback_catalog : FormatsResponse :=
  {| status := "success"; title := lit "Clip"; thumbnail := EmptyString;
     formats := [ {| format_id := "default"; ext := "mp4";
                     resolution := "?x720"; note := "Default Source";
                     type := "combined"; filesize := Some 1000;
                     height := 720 |} ] |}.

Definition example_file (m : Z) (l : bool) : entry :=
  Regular {| mtime := m; content := [Byte.x01; Byte.x02; Byte.x03]; locked := l |}.

(** A workspace at time 10000 with a stale file, a stale file that cannot
    be removed, a young file and a directory. *)
Definition example_world : world :=
  {| fs := <["old.bin" := example_file 0 false]>
           (<["busy.bin" := example_file 0 true]>
           (<["new.bin" := example_file 9000 false]>
           (<["sub" := Dir 0]> ∅)));
     now := 10000; COOKIES_CONTENT := None; local_cookies := false;
     calls := [] |}.

Definition example_uuid : string := "01234567-89ab-4cde-8f01-23456789abcd".

Definition example_request : DownloadRequest :=
  {| url := "https://example.org/watch"; video_format := "137";
     audio_format := "140"; proxy := None |}.

(** An engine and a combiner for the request above: the engine reports
    [i] and writes the selected stream to the job's file (the
    video file locked when [lock_video]; the audio download fails unless
    [audio_ok]); the combiner exits with [returncode] and the bytes of
    [stderr] and, on status 0, writes the merged file. The error outputs of
    the examples are ASCII, which decodes to itself, or hold a byte of
    value 128 or more that is not part of any UTF-8 sequence. *)
Definition example_runtime (i : info) (lock_video audio_ok : bool)
  (returncode : Z) (stderr : string) : runtime :=
  {| extract_info := λ _ _ fs, (Ok i, fs);
     download := λ o _ fs,
       if bool_decide (o_format o = Some "137") then
         (Ok (), <["01234567_video.mp4" := example_file 10000 lock_video]> fs)
       else if audio_ok then
         (Ok (), <["01234567_audio.m4a" := example_file 10000 false]> fs)
       else (Raise (EngineError "ERROR: unable to download audio"), fs);
     run_ffmpeg := λ _ fs,
       (Ok (returncode, list_byte_of_string stderr),
        if returncode =? 0
        then <["01234567_merged.mp4" := example_file 10000 false]> fs
        else fs);
     decode := λ data,
       if forallb (λ b, (Byte.to_N b <? 128)%N) data
       then Some (string_of_list_byte data) else None;
     exc_text := λ _, "error";
     TEMP_DIR := "/tmp/anystreampro" |}.

(** An output file one byte longer than a chunk. *)
Definition long_file : file :=
  {| mtime := 10000; content := replicate (S CHUNK) Byte.x00; locked := false |}.

Definition short_file : file :=
  {| mtime := 10000; content := [Byte.x01; Byte.x02; Byte.x03]; locked := false |}.

(** A title in another script: the code points 26144 and 30011, then a
    colon and the letter A. *)
Definition wide_title_info : info :=
  {| i_title := Has [26144; 30011; 58; 65]%N; i_thumbnail := Missing;
     i_thumbnails := Missing; i_formats := Missing; i_url := Missing;
     i_ext := Missing; i_width := Missing; i_height := Missing;
     i_filesize := Missing |}.

(** An error output that is not valid UTF-8: the single byte 255. *)
Definition undecodable : string := String "255"%char EmptyString.

Definition untitled_info : info :=
  {| i_title := Missing; i_thumbnail := Missing; i_thumbnails := Missing;
     i_formats := Missing; i_url := Missing; i_ext := Missing;
     i_width := Missing; i_height := Missing; i_filesize := Missing |}.

(* ===================================================================== *)
(** ** The health check *)
(* ===================================================================== *)

Record HealthResponse : Type := {
  health_status : string;
  ffmpeg_status : string;
}.

(** [health]: [subprocess.run(["ffmpeg", "-version"], capture_output=True,
    check=True)] raises when the program is missing and, because of
    [check], when it leaves with a status other than 0; any exception
    gives the answer not found. *)
Definition health (rt : runtime) (w : world) : HealthResponse * world :=
  let '(r, fs') := run_ffmpeg rt ["ffmpeg"; "-version"] (fs w) in
  let found :=
    match r with
    | Ok (returncode, _) => returncode =? 0
    | Raise _ => false
    end in
  ({| health_status := "healthy";
      ffmpeg_status := if found then "available" else "not found" |},
   with_fs w fs').

(* ===================================================================== *)
(** ** More vocabulary *)
(* ===================================================================== *)

(** The three workspace files of the job [job_id], as [download_merged]
    names them. *)
Definition job_files (job_id : string) : list string :=
  [ job_id +:+ "_video.mp4"; job_id +:+ "_audio.m4a"; job_id +:+ "_merged.mp4" ].

(** The calls of a download request that runs to the end. *)
Definition download_calls (request : DownloadRequest) : list event :=
  [ Extracted (url request); Downloaded (video_format request);
    Downloaded (audio_format request); Combined ].

(** The options [get_formats] gives the engine. *)
Definition opts_formats (request : URLRequest) (cookie_file : option string)
  : ydl_opts :=
  {| o_format := None; o_outtmpl := None; o_skip_download := true;
     o_quiet := false; o_no_warnings := false; o_logtostderr := true;
     o_proxy := proxy_opt (u_proxy request); o_cookiefile := cookie_file |}.

(** All four stages of a download request succeed on the workspace of [w]:
    the engine reports [i], and the combiner leaves the workspace [fs4]
    with status 0. *)
Inductive stages_succeed (rt : runtime) (request : DownloadRequest)
  (video_file audio_file output_file : string) (cookie_file : option string)
  (w : world) (i : info) (fs4 : fsys) : Prop :=
| all_stages fs1 fs2 fs3 stderr :
    extract_info rt (opts_info request cookie_file) (url request) (fs w)
    = (Ok i, fs1) →
    i_title i ≠ Null →
    download rt (opts_stream rt request cookie_file (video_format request)
                   video_file) (url request) fs1 = (Ok (), fs2) →
    download rt (opts_stream rt request cookie_file (audio_format request)
                   audio_file) (url request) fs2 = (Ok (), fs3) →
    run_ffmpeg rt (ffmpeg_cmd rt video_file audio_file output_file) fs3
    = (Ok (0, stderr), fs4) →
    stages_succeed rt request video_file audio_file output_file cookie_file
      w i fs4.

(** How far a download request gets on the workspace of [w]: the number of
    the first stage that fails, the stages being the metadata fetch (1),
    the video download (2), the audio download (3) and the combiner (4);
    the combiner is reached when the three stages before it succeed. *)
Inductive stops_after (rt : runtime) (request : DownloadRequest)
  (video_file audio_file output_file : string) (cookie_file : option string)
  (w : world) : nat → Prop :=
| stops_after_metadata r fs1 e :
    extract_info rt (opts_info request cookie_file) (url request) (fs w)
    = (r, fs1) →
    r ≫= title_of = Raise e →
    stops_after rt request video_file audio_file output_file cookie_file w 1
| stops_after_video i fs1 e fs2 :
    extract_info rt (opts_info request cookie_file) (url request) (fs w)
    = (Ok i, fs1) →
    i_title i ≠ Null →
    download rt (opts_stream rt request cookie_file (video_format request)
                   video_file) (url request) fs1 = (Raise e, fs2) →
    stops_after rt request video_file audio_file output_file cookie_file w 2
| stops_after_audio i fs1 fs2 e fs3 :
    extract_info rt (opts_info request cookie_file) (url request) (fs w)
    = (Ok i, fs1) →
    i_title i ≠ Null →
    download rt (opts_stream rt request cookie_file (video_format request)
                   video_file) (url request) fs1 = (Ok (), fs2) →
    download rt (opts_stream rt request cookie_file (audio_format request)
                   audio_file) (url request) fs2 = (Raise e, fs3) →
    stops_after rt request video_file audio_file output_file cookie_file w 3
| reaches_combiner i fs1 fs2 fs3 :
    extract_info rt (opts_info request cookie_file) (url request) (fs w)
    = (Ok i, fs1) →
    i_title i ≠ Null →
    download rt (opts_stream rt request cookie_file (video_format request)
                   video_file) (url request) fs1 = (Ok (), fs2) →
    download rt (opts_stream rt request cookie_file (audio_format request)
                   audio_file) (url request) fs2 = (Ok (), fs3) →
    stops_after rt request video_file audio_file output_file cookie_file w 4.

(** Two runtimes that differ in the engine only. *)
Definition same_but_engine (rt rt' : runtime) : Prop :=
  run_ffmpeg rt = run_ffmpeg rt'
  ∧ decode rt = decode rt'
  ∧ exc_text rt = exc_text rt'
  ∧ TEMP_DIR rt = TEMP_DIR rt'.

(** The same world with another answer to [os.path.exists("cookies.txt")]. *)
Definition with_local_cookies (w : world) (b : bool) : world :=
  {| fs := fs w; now := now w; COOKIES_CONTENT := COOKIES_CONTENT w;
     local_cookies := b; calls := calls w |}.

(** An entry exists but cannot be removed: [exists()] holds and [unlink]
    raises. *)
Definition stuck (e : option entry) : bool :=
  match e with
  | Some (Regular f) => locked f
  | Some (Dir _) => true
  | None => false
  end.

(** A record the table keeps that has no format id, after two good ones. *)
Definition example_raw_without_id : list raw_format :=
  [ example_format "v720" (Has "avc1") (Has "none") (Has 720);
    {| f_format_id := Missing; f_ext := Has "webm"; f_vcodec := Has "vp9";
       f_acodec := Missing; f_height := Has 480; f_width := Has 854;
       f_resolution := Missing; f_tbr := Missing; f_format_note := Missing;
       f_filesize := Missing |} ].

Definition example_info_without_id : info :=
  {| i_title := Has (lit "Clip"); i_thumbnail := Missing;
     i_thumbnails := Missing;
     i_formats := Has example_raw_without_id; i_url := Missing;
     i_ext := Missing; i_width := Missing; i_height := Missing;
     i_filesize := Missing |}.

(** An audio record with a bit rate of 128.5 and no note, resolution, width
    or height. *)
Definition example_audio_format : raw_format :=
  {| f_format_id := Has "140"; f_ext := Has "m4a"; f_vcodec := Has "none";
     f_acodec := Has "mp4a.40.2"; f_height := Missing; f_width := Missing;
     f_resolution := Missing; f_tbr := Has (257 # 2)%Q;
     f_format_note := Missing; f_filesize := Null |}.

Definition example_audio_descriptor : FormatInfo :=
  {| format_id := "140"; ext := "m4a"; resolution := "?x0";
     note := "(128kbps)"; type := "audio"; filesize := None; height := 0 |}.

(** A result with thumbnails only. *)
Definition example_info_thumbnails : info :=
  {| i_title := Missing; i_thumbnail := Missing;
     i_thumbnails := Has [ {| t_url := Has "https://img.example/small.jpg" |};
                           {| t_url := Has "https://img.example/large.jpg" |} ];
     i_formats := Missing; i_url := Missing; i_ext := Missing;
     i_width := Missing; i_height := Missing; i_filesize := Missing |}.

Definition example_catalog_thumbnails : FormatsResponse :=
  {| status := "success"; title := lit "Unknown Title";
     thumbnail := "https://img.example/large.jpg"; formats := [] |}.

(** What [FormatInfo(...)] needs of a record: a format id, an ext that is
    not [None], and a note that is not [None] (a bit rate makes any note a
    text). *)
Definition well_formed (f : raw_format) : Prop :=
  (∃ s, f_format_id f = Has s)
  ∧ f_ext f ≠ Null
  ∧ (f_format_note f = Null → truthy_num (get (f_tbr f)) = true).

(** The descriptor [d] is the one the loop builds from the record [f]. *)
Definition described_by (f : raw_format) (d : FormatInfo) : Prop :=
  ∃ label, type_label f = Some label ∧ make_format f label = Ok d.

Definition example_info_audio : info :=
  {| i_title := Has (lit "Song"); i_thumbnail := Missing;
     i_thumbnails := Missing;
     i_formats := Has [example_audio_format]; i_url := Missing;
     i_ext := Missing; i_width := Missing; i_height := Missing;
     i_filesize := Missing |}.

Definition example_catalog_audio : FormatsResponse :=
  {| status := "success"; title := lit "Song"; thumbnail := EmptyString;
     formats := [example_audio_descriptor] |}.

(** A workspace in which [cookies.txt] is a directory, and a cookie text
    in the environment. *)
Definition example_world_cookie_dir : world :=
  {| fs := <["cookies.txt" := Dir 0]> ∅; now := 10000;
     COOKIES_CONTENT := Some "# Netscape HTTP Cookie File";
     local_cookies := false; calls := [] |}.

Definition example_url_request : URLRequest :=
  {| u_url := "https://example.org/watch"; u_proxy := None |}.

(* ===================================================================== *)
(** ** Properties *)
(* ===================================================================== *)

(* --------------------------------------------------------------------- *)
(** *** The title sanitizer *)
(* --------------------------------------------------------------------- *)

Section Sanitizer.

Lemma chars_text l : chars (text l) = l.
Proof. apply list_ascii_of_string_of_list_ascii. Qed.

Lemma text_chars s : text (chars s) = s.
Proof. apply string_of_list_ascii_of_string. Qed.

Lemma length_chars s : length (chars s) = String.length s.
Proof. induction s as [|c s IH]; simpl; [done | by rewrite IH]. Qed.

Lemma is_invalid_false c : is_invalid c = false ↔ c ∉ INVALID_CHARS.
Proof. unfold is_invalid. apply bool_decide_eq_false. Qed.

Lemma sanitize_filename_valid name :
  Forall (λ c, is_invalid c = false) (sanitize_filename name).
Proof.
  unfold sanitize_filename, re_sub_invalid.
  apply Forall_take, Forall_forall.
  intros c Hc. by apply list_elem_of_filter in Hc as [? _].
Qed.

Lemma length_sanitize_filename name :
  (length (sanitize_filename name) ≤ 200)%nat.
Proof. unfold sanitize_filename. rewrite length_take. lia. Qed.

Lemma filter_all_id {A} (P : A → Prop) `{!∀ x, Decision (P x)} (l : list A) :
  Forall P l → filter P l = l.
Proof.
  induction 1 as [|x l Hx _ IH]; [done |].
  by rewrite filter_cons_True, IH.
Qed.

End Sanitizer.

(** Claim C6. For every input text, the result of [sanitize_filename] holds
    none of the nine characters of [INVALID_CHARS], is at most 200
    characters long, and each of its characters is a character of the
    input. *)
Theorem sanitize_filename_spec (name : utext) :
  (∀ c, c ∈ INVALID_CHARS → c ∉ sanitize_filename name)
  ∧ (length (sanitize_filename name) ≤ 200)%nat
  ∧ (∀ c, c ∈ sanitize_filename name → c ∈ name).
Proof.
  split; [| split].
  - intros c Hbad Hin.
    pose proof (sanitize_filename_valid name) as Hall.
    rewrite Forall_forall in Hall.
    by apply Hall, is_invalid_false in Hin.
  - apply length_sanitize_filename.
  - intros c Hin. unfold sanitize_filename, re_sub_invalid in Hin.
    apply elem_of_take in Hin as (i & Hin & _).
    by apply list_elem_of_lookup_2, list_elem_of_filter in Hin as [_ ?].
Qed.

(** The nine characters by code point, and the title of the
    specification's scenario. *)
Example invalid_chars_codes :
  INVALID_CHARS = [60; 62; 58; 34; 47; 92; 124; 63; 42]%N.
Proof. reflexivity. Qed.

Example sanitize_scenario :
  sanitize_filename (lit "My:Video/Title*") = lit "MyVideoTitle".
Proof. vm_compute. reflexivity. Qed.

(** Characters outside Latin-1 are kept. *)
Example sanitize_keeps_other_scripts :
  sanitize_filename [26144; 30011; 58; 65]%N = [26144; 30011; 65]%N.
Proof. vm_compute. reflexivity. Qed.

(** Claim C8. [sanitize_filename] is idempotent: sanitizing a sanitized
    text changes nothing. *)
Theorem sanitize_filename_idempotent (name : utext) :
  sanitize_filename (sanitize_filename name) = sanitize_filename name.
Proof.
  change (sanitize_filename (sanitize_filename name))
    with (take 200 (filter (λ c, is_invalid c = false)
                      (sanitize_filename name))).
  rewrite filter_all_id by apply sanitize_filename_valid.
  apply take_ge, length_sanitize_filename.
Qed.

(* --------------------------------------------------------------------- *)
(** *** The catalog: classification and order *)
(* --------------------------------------------------------------------- *)

Section Catalog.

Lemma type_label_table f :
  type_label f = classification_table (has_video f) (has_audio f).
Proof. unfold type_label. by destruct (has_video f), (has_audio f). Qed.

Lemma make_format_fields f label d :
  make_format f label = Ok d →
  type d = label ∧ f_format_id f = Has (format_id d) ∧ height d = height_or_0 f.
Proof.
  unfold make_format. intros H.
  destruct (f_format_id f) as [| |fid] eqn:Hid; simpl in H; try discriminate.
  destruct (as_str "FormatInfo" (f_ext f) (Has EmptyString)); simpl in H;
    [| discriminate ].
  destruct (note_of f); simpl in H; [| discriminate ].
  by injection H as <-.
Qed.

Lemma collect_spec raw : ∀ acc out,
  collect raw acc = Ok out →
  ∃ ds, out = acc ++ ds ∧ Forall2 built_from (filter kept raw) ds.
Proof.
  induction raw as [|f raw IH]; intros acc out H; simpl in H.
  - injection H as <-. exists []. by rewrite app_nil_r.
  - pose proof (type_label_table f) as Ht.
    destruct (type_label f) as [label|] eqn:Hl.
    + destruct (make_format f label) as [d|] eqn:Hd; simpl in H; [| discriminate ].
      apply IH in H as (ds & -> & Hds).
      exists (d :: ds). split; [ by rewrite <- app_assoc |].
      rewrite filter_cons_True by (unfold kept; congruence).
      constructor; [| done ].
      apply make_format_fields in Hd as (<- & ? & ?). by split.
    + apply IH in H as (ds & -> & Hds).
      exists ds. split; [ done |].
      by rewrite filter_cons_False by (unfold kept; intros ?; congruence).
Qed.

Lemma insert_reverse_perm {A} (key : A → Z) x l :
  insert_reverse key x l ≡ₚ x :: l.
Proof.
  induction l as [|y l IH]; simpl; [ done |].
  destruct (key x <? key y); [| done ].
  rewrite IH. apply Permutation_swap.
Qed.

Lemma sort_reverse_perm {A} (key : A → Z) l : sort_reverse key l ≡ₚ l.
Proof.
  induction l as [|x l IH]; simpl; [ done |].
  by rewrite insert_reverse_perm, IH.
Qed.

Lemma insert_reverse_sorted {A} (key : A → Z) x l :
  descending key l → descending key (insert_reverse key x l).
Proof.
  induction 1 as [|y l Hs IH Hy]; simpl.
  - repeat constructor.
  - destruct (key x <? key y) eqn:Hc.
    + constructor; [ done |].
      rewrite insert_reverse_perm. constructor; [ lia | done ].
    + constructor; [ by constructor |].
      constructor; [ lia |].
      eapply Forall_impl; [ exact Hy |]. simpl. intros; lia.
Qed.

Lemma sort_reverse_sorted {A} (key : A → Z) l : descending key (sort_reverse key l).
Proof.
  induction l as [|x l IH]; simpl; [ constructor |].
  by apply insert_reverse_sorted.
Qed.

Lemma insert_reverse_filter {A} (key : A → Z) (h : Z) x l :
  filter (λ a, key a = h) (insert_reverse key x l)
  = filter (λ a, key a = h) (x :: l).
Proof.
  induction l as [|y l IH]; simpl; [ done |].
  destruct (key x <? key y) eqn:Hc; [| done ].
  rewrite filter_cons, IH, !filter_cons.
  repeat case_decide; try done. lia.
Qed.

Lemma sort_reverse_stable {A} (key : A → Z) (h : Z) l :
  filter (λ a, key a = h) (sort_reverse key l) = filter (λ a, key a = h) l.
Proof.
  induction l as [|x l IH]; simpl; [ done |].
  by rewrite insert_reverse_filter, !filter_cons, IH.
Qed.

End Catalog.

(** What [has_video] and [has_audio] test: the codec field holds a text
    that is neither empty nor the word none. A missing key, [None] and the
    empty text all count as no codec. *)
Lemma has_video_iff f :
  has_video f = true
  ↔ ∃ s, f_vcodec f = Has s ∧ s ≠ EmptyString ∧ s ≠ "none".
Proof.
  unfold has_video. destruct (f_vcodec f) as [| |s]; simpl;
    [ split; [ done | by intros (? & ? & _) ]
    | split; [ done | by intros (? & ? & _) ] |].
  rewrite andb_true_iff, negb_true_iff, negb_true_iff, bool_decide_eq_false.
  rewrite String.eqb_neq. split.
  - intros [? Hn]. exists s. repeat split; [ done |]. congruence.
  - intros (s' & [= <-] & ? & ?). split; congruence.
Qed.

Lemma has_audio_iff f :
  has_audio f = true
  ↔ ∃ s, f_acodec f = Has s ∧ s ≠ EmptyString ∧ s ≠ "none".
Proof.
  unfold has_audio. destruct (f_acodec f) as [| |s]; simpl;
    [ split; [ done | by intros (? & ? & _) ]
    | split; [ done | by intros (? & ? & _) ] |].
  rewrite andb_true_iff, negb_true_iff, negb_true_iff, bool_decide_eq_false.
  rewrite String.eqb_neq. split.
  - intros [? Hn]. exists s. repeat split; [ done |]. congruence.
  - intros (s' & [= <-] & ? & ?). split; congruence.
Qed.

(** Claim C3. For every list [raw] of format records for which the catalog
    is produced, the label of each record is the entry of the
    classification table for (has video, has audio): video only gives
    video, audio only gives audio, both give combined. The descriptors of
    the catalog are, up to the final sort, those of the records the table
    keeps, in order and each with its record's label, format id and
    height; a record with neither codec has no descriptor. ([synthetic] is
    the fallback descriptor, present only when [raw] is empty.) *)
Theorem catalog_classification (i : info) (raw : list raw_format)
  (r : FormatsResponse) :
  raw_formats_of i = Some raw →
  catalog i = Ok r →
  (∀ f, f ∈ raw → type_label f = classification_table (has_video f) (has_audio f))
  ∧ ∃ synthetic ds,
      formats r ≡ₚ synthetic ++ ds
      ∧ (raw ≠ [] → synthetic = [])
      ∧ Forall2 built_from (filter kept raw) ds.
Proof.
  intros Hraw Hcat. split; [ intros; apply type_label_table |].
  unfold catalog in Hcat.
  destruct (unsorted_formats i) as [built|] eqn:Hb; simpl in Hcat; [| discriminate ].
  destruct (as_str _ _ _); simpl in Hcat; [| discriminate ].
  injection Hcat as <-. simpl.
  unfold unsorted_formats in Hb. rewrite Hraw in Hb.
  destruct raw as [|f raw].
  - destruct (truthy_str (get (i_url i))).
    + destruct (default_format i) as [d|]; simpl in Hb; [| discriminate ].
      injection Hb as <-. exists [d], []. rewrite sort_reverse_perm.
      split; [ done |]. split; [ done | constructor ].
    + simpl in Hb. injection Hb as <-. exists [], []. simpl.
      split; [ done |]. split; [ done | constructor ].
  - simpl in Hb. change (collect (f :: raw) [] = Ok built) in Hb.
    apply collect_spec in Hb as (ds & -> & Hds).
    exists [], ds. rewrite sort_reverse_perm. done.
Qed.

Lemma catalog_classification_witness :
  (∀ f, f ∈ example_raw →
        type_label f = classification_table (has_video f) (has_audio f))
  ∧ ∃ synthetic ds,
      formats example_catalog ≡ₚ synthetic ++ ds
      ∧ (example_raw ≠ [] → synthetic = [])
      ∧ Forall2 built_from (filter kept example_raw) ds.
Proof.
  apply (catalog_classification example_info example_raw example_catalog).
  - reflexivity.
  - vm_compute. reflexivity.
Defined.

(** Claim C4. The formats of every catalog are a permutation of the list
    the loop built, sorted by height, largest first; and the sort is
    stable: for each height, the descriptors of that height appear in the
    catalog in the order in which they were built. *)
Theorem catalog_sorted_stable (i : info) (r : FormatsResponse) :
  catalog i = Ok r →
  ∃ built,
    unsorted_formats i = Ok built
    ∧ formats r ≡ₚ built
    ∧ descending height (formats r)
    ∧ ∀ h, filter (λ d, height d = h) (formats r)
           = filter (λ d, height d = h) built.
Proof.
  unfold catalog. intros Hcat.
  destruct (unsorted_formats i) as [built|]; simpl in Hcat; [| discriminate ].
  destruct (as_str _ _ _); simpl in Hcat; [| discriminate ].
  injection Hcat as <-. simpl. exists built.
  split; [ done |]. split; [ apply sort_reverse_perm |].
  split; [ apply sort_reverse_sorted | intros h; apply sort_reverse_stable ].
Qed.

Lemma catalog_sorted_stable_witness :
  ∃ built,
    unsorted_formats example_info = Ok built
    ∧ formats example_catalog ≡ₚ built
    ∧ descending height (formats example_catalog)
    ∧ ∀ h, filter (λ d, height d = h) (formats example_catalog)
           = filter (λ d, height d = h) built.
Proof.
  apply (catalog_sorted_stable example_info example_catalog).
  vm_compute. reflexivity.
Defined.

(** The heights 720, 1080, 480 come out as 1080, 720, 480. *)
Example sort_heights :
  sort_reverse id [720; 1080; 480] = [1080; 720; 480].
Proof. reflexivity. Qed.

(* --------------------------------------------------------------------- *)
(** *** The fallback descriptor *)
(* --------------------------------------------------------------------- *)

(** Claim C7 as stated fails: a result with a direct url, no formats, no
    width and a height of 720 gets the resolution ?x720, not ?x?. *)
Lemma fallback_resolution_counterexample :
  raw_formats_of fallback_info = Some []
  ∧ truthy_str (get (i_url fallback_info)) = true
  ∧ i_width fallback_info = Missing
  ∧ catalog fallback_info = Ok fallback_catalog
  ∧ resolution <$> formats fallback_catalog = ["?x720"]
  ∧ resolution <$> formats fallback_catalog ≠ ["?x?"].
Proof. repeat split; try reflexivity. discriminate. Qed.

(** Claim C7, amended. For every extraction result with no formats (key
    missing or empty list), a non-empty direct url, and no [None] in
    title, ext and height, the catalog is produced and holds exactly one
    descriptor: format id default, type combined, ext the ext field or mp4
    when missing, the file size when present, height the height field or 0
    when missing, and a resolution that renders a missing width or a
    missing height each as a question mark; it is ?x? when both are
    missing. *)
Theorem fallback_descriptor (i : info) :
  raw_formats_of i = Some [] →
  truthy_str (get (i_url i)) = true →
  i_title i ≠ Null → i_ext i ≠ Null → i_height i ≠ Null →
  ∃ r d,
    catalog i = Ok r
    ∧ formats r = [d]
    ∧ type d = "combined"
    ∧ format_id d = "default"
    ∧ ext d = default "mp4" (get (i_ext i))
    ∧ filesize d = get (i_filesize i)
    ∧ height d = default 0 (get (i_height i))
    ∧ resolution d
      = fmt_or_question (i_width i) +:+ "x" +:+ fmt_or_question (i_height i)
    ∧ (i_width i = Missing → i_height i = Missing → resolution d = "?x?").
Proof.
  intros Hraw Hurl Ht He Hh.
  unfold catalog, unsorted_formats, default_format. rewrite Hraw, Hurl.
  destruct (i_title i) as [| |t] eqn:Et; [| done |];
    (destruct (i_ext i) as [| |e] eqn:Ee; [| done |]);
    (destruct (i_height i) as [| |h] eqn:Eh; [| done |]);
    simpl; eexists _, _; (split; [ reflexivity |]); simpl;
    repeat (split; [ reflexivity |]); try (intros ->; done); try done.
  all: by intros ->.
Qed.

Lemma fallback_descriptor_witness :
  ∃ r d,
    catalog fallback_info = Ok r
    ∧ formats r = [d]
    ∧ type d = "combined"
    ∧ format_id d = "default"
    ∧ ext d = default "mp4" (get (i_ext fallback_info))
    ∧ filesize d = get (i_filesize fallback_info)
    ∧ height d = default 0 (get (i_height fallback_info))
    ∧ resolution d
      = fmt_or_question (i_width fallback_info) +:+ "x" +:+
        fmt_or_question (i_height fallback_info)
    ∧ (i_width fallback_info = Missing → i_height fallback_info = Missing →
       resolution d = "?x?").
Proof.
  apply (fallback_descriptor fallback_info); [ reflexivity | reflexivity | | | ];
    discriminate.
Defined.

(* --------------------------------------------------------------------- *)
(** *** The workspace: sweep and purge *)
(* --------------------------------------------------------------------- *)

Section Workspace.

Implicit Types (fs : fsys) (name : string).

Lemma try_unlink_lookup n fs name :
  try_unlink n fs !! name
  = if bool_decide (n = name) && deletable (fs !! name) then None else fs !! name.
Proof.
  unfold try_unlink, unlink.
  case_bool_decide as Hn; simpl.
  - subst n. destruct (fs !! name) as [[|f]|] eqn:E; simpl; try done.
    destruct (locked f); simpl; [ done | apply lookup_delete_eq ].
  - destruct (fs !! n) as [[|f]|]; try done.
    destruct (locked f); [ done | by apply lookup_delete_ne ].
Qed.

Lemma sweep_one_lookup now fs n name :
  sweep_one now fs n !! name
  = if bool_decide (n = name) && stale now (fs !! name) && deletable (fs !! name)
    then None else fs !! name.
Proof.
  unfold sweep_one, is_file, st_mtime.
  case_bool_decide as Hn; simpl.
  - subst n. destruct (fs !! name) as [[|f]|] eqn:E; simpl; try done.
    destruct (now - mtime f >? 3600); simpl; [| done ].
    rewrite try_unlink_lookup, E, bool_decide_eq_true_2 by done. done.
  - destruct (fs !! n) as [[|f]|]; simpl; try done.
    destruct (now - mtime f >? 3600); simpl; [| done ].
    rewrite try_unlink_lookup, bool_decide_eq_false_2 by done. done.
Qed.

Lemma sweep_lookup now names : ∀ fs name,
  sweep now names fs !! name
  = if bool_decide (name ∈ names) && stale now (fs !! name) && deletable (fs !! name)
    then None else fs !! name.
Proof.
  unfold sweep.
  induction names as [|n names IH]; intros fs name; cbn [foldl].
  - case_bool_decide as H; [ by apply elem_of_nil in H | done ].
  - rewrite IH, sweep_one_lookup.
    rewrite (bool_decide_ext (name ∈ n :: names) (n = name ∨ name ∈ names))
      by (rewrite elem_of_cons; intuition congruence).
    rewrite bool_decide_or.
    destruct (bool_decide (n = name)), (bool_decide (name ∈ names)),
      (stale now (fs !! name)) eqn:Es, (deletable (fs !! name)) eqn:Ed;
      simpl; rewrite ?Es, ?Ed; done.
Qed.

Lemma elem_of_glob_all fs name : name ∈ glob_all fs ↔ is_Some (fs !! name).
Proof.
  unfold glob_all. rewrite list_elem_of_fmap. split.
  - intros ([n e] & -> & Hin). apply elem_of_map_to_list in Hin. by exists e.
  - intros [e He]. exists (name, e). split; [ done |].
    by apply elem_of_map_to_list.
Qed.

Lemma cleanup_old_files_lookup w name :
  fs (cleanup_old_files w) !! name
  = if stale (now w) (fs w !! name) && deletable (fs w !! name)
    then None else fs w !! name.
Proof.
  unfold cleanup_old_files. simpl. rewrite sweep_lookup.
  destruct (fs w !! name) as [e|] eqn:E; [| by rewrite andb_false_r ].
  rewrite bool_decide_eq_true_2; [ done |].
  apply elem_of_glob_all. by rewrite E.
Qed.

Lemma purge_one_lookup fs n name :
  purge_one fs n !! name
  = if bool_decide (n = name) && deletable (fs !! name) then None else fs !! name.
Proof.
  unfold purge_one, exists_. case_bool_decide as Hex.
  - apply try_unlink_lookup.
  - case_bool_decide as Hn; [| done ]. subst n.
    destruct (fs !! name); [| done ]. exfalso. by apply Hex.
Qed.

Lemma purge_lookup names : ∀ fs name,
  foldl purge_one fs names !! name
  = if bool_decide (name ∈ names) && deletable (fs !! name) then None else fs !! name.
Proof.
  induction names as [|n names IH]; intros fs name; cbn [foldl].
  - case_bool_decide as H; [ by apply elem_of_nil in H | done ].
  - rewrite IH, purge_one_lookup.
    rewrite (bool_decide_ext (name ∈ n :: names) (n = name ∨ name ∈ names))
      by (rewrite elem_of_cons; intuition congruence).
    rewrite bool_decide_or.
    destruct (bool_decide (n = name)), (bool_decide (name ∈ names)),
      (deletable (fs !! name)) eqn:Ed; simpl; rewrite ?Ed; done.
Qed.

End Workspace.

(* --------------------------------------------------------------------- *)
(** *** Failure of a download request *)
(* --------------------------------------------------------------------- *)

Section Download.

Context (rt : runtime) (request : DownloadRequest).

Lemma title_of_ok i : i_title i ≠ Null → ∃ t, title_of i = Ok t.
Proof. unfold title_of. destruct (i_title i); [ eauto | done | eauto ]. Qed.

Lemma stage_failure_pipeline v a o cookie_file w e :
  stage_failure rt request v a o cookie_file w e →
  ∃ w', pipeline rt request v a o cookie_file w = (Raise e, w').
Proof.
  intros H. unfold pipeline.
  destruct H as [e fs1 H1 | i fs1 e fs2 H1 Ht H2 | i fs1 fs2 e fs3 H1 Ht H2 H3
                | i fs1 fs2 fs3 rc stderr fs4 message H1 Ht H2 H3 H4 Hrc Hd
                | i fs1 fs2 fs3 rc stderr fs4 H1 Ht H2 H3 H4 Hrc Hd];
    rewrite H1; cbn [mbind result_bind]; [ eauto | | | | ];
    destruct (title_of_ok i Ht) as [t ->]; cbn [fs with_fs called];
    rewrite H2; [ eauto | | | ]; cbn [fs with_fs called];
    rewrite H3; [ eauto | | ]; cbn [fs with_fs called];
    rewrite H4; apply Z.eqb_neq in Hrc; rewrite Hrc; cbn [negb];
    rewrite Hd; eauto.
Qed.

Lemma download_merged_raise uuid w cookie_file w1 e w2 :
  cookies rt false w = (Ok cookie_file, w1) →
  pipeline rt request (slice_to 8 uuid +:+ "_video.mp4")
    (slice_to 8 uuid +:+ "_audio.m4a") (slice_to 8 uuid +:+ "_merged.mp4")
    cookie_file w1 = (Raise e, w2) →
  download_merged rt request uuid w
  = (HTTPException 500 (str_exn rt e),
     with_fs w2 (foldl purge_one (fs w2)
                   [slice_to 8 uuid +:+ "_video.mp4";
                    slice_to 8 uuid +:+ "_audio.m4a";
                    slice_to 8 uuid +:+ "_merged.mp4"])).
Proof.
  intros Hc Hp. unfold download_merged, attempt. by rewrite Hc, Hp.
Qed.

Lemma latin1_app s1 s2 : latin1 (s1 ++ s2) = latin1 s1 && latin1 s2.
Proof. apply forallb_app. Qed.

Lemma latin1_lit s : latin1 (lit s) = true.
Proof.
  unfold latin1, lit, chars. induction s as [|c s IH]; [ done |].
  change (forallb (λ c, (c <=? 255)%N)
            (N_of_ascii <$> list_ascii_of_string (String c s)))
    with ((N_of_ascii c <=? 255)%N
          && forallb (λ c, (c <=? 255)%N)
               (N_of_ascii <$> list_ascii_of_string s)).
  rewrite IH, andb_true_r.
  apply N.leb_le. pose proof (N_ascii_bounded c). lia.
Qed.

Lemma latin1_content_disposition filename :
  latin1 (lit "attachment; filename=" ++ lit quote ++ filename ++ lit quote)
  = latin1 filename.
Proof.
  rewrite !latin1_app, !latin1_lit. cbn [andb]. apply andb_true_r.
Qed.

Lemma latin1_filename t : latin1 (t ++ lit ".mp4") = latin1 t.
Proof. rewrite latin1_app, latin1_lit. apply andb_true_r. Qed.

(** The [return] statement after stages that succeeded. *)
Lemma attempt_ok v a o cookie_file w t w2 :
  pipeline rt request v a o cookie_file w = (Ok t, w2) →
  attempt rt request v a o cookie_file w
  = (if latin1 t then
       Ok (StreamingResponse (Unstarted o) "video/mp4"
             (<["Content-Disposition" :=
                  lit "attachment; filename=" ++ lit quote ++
                  (t ++ lit ".mp4") ++ lit quote]>
              (<["Content-Type" := lit "video/mp4"]> ∅)))
     else
       Raise (Interp (UnicodeEncodeError
                        (lit "attachment; filename=" ++ lit quote ++
                         (t ++ lit ".mp4") ++ lit quote))),
     w2).
Proof.
  intros Hp. unfold attempt, streaming_response. rewrite Hp.
  cbn [encode_headers].
  rewrite latin1_content_disposition, latin1_filename, latin1_lit.
  by destruct (latin1 t).
Qed.

Lemma attempt_raise v a o cookie_file w e w2 :
  pipeline rt request v a o cookie_file w = (Raise e, w2) →
  attempt rt request v a o cookie_file w = (Raise e, w2).
Proof. intros Hp. unfold attempt. by rewrite Hp. Qed.

Lemma attempt_world v a o cookie_file w :
  (attempt rt request v a o cookie_file w).2
  = (pipeline rt request v a o cookie_file w).2.
Proof.
  destruct (pipeline rt request v a o cookie_file w) as [[t|e] w2] eqn:Hp.
  - by rewrite (attempt_ok _ _ _ _ _ _ _ Hp).
  - by rewrite (attempt_raise _ _ _ _ _ _ _ Hp).
Qed.

(** A response other than an error is the stream, after a pipeline that
    succeeded with a title that can be encoded. *)
Lemma download_merged_stream uuid w body media_type headers w' :
  download_merged rt request uuid w
  = (StreamingResponse body media_type headers, w') →
  ∃ cookie_file w1 t,
    cookies rt false w = (Ok cookie_file, w1)
    ∧ pipeline rt request (slice_to 8 uuid +:+ "_video.mp4")
        (slice_to 8 uuid +:+ "_audio.m4a") (slice_to 8 uuid +:+ "_merged.mp4")
        cookie_file w1 = (Ok t, w')
    ∧ latin1 t = true
    ∧ body = Unstarted (slice_to 8 uuid +:+ "_merged.mp4")
    ∧ media_type = "video/mp4"
    ∧ headers = <["Content-Disposition" :=
                    lit "attachment; filename=" ++ lit quote ++
                    (t ++ lit ".mp4") ++ lit quote]>
                (<["Content-Type" := lit "video/mp4"]> ∅).
Proof.
  unfold download_merged. intros H.
  destruct (cookies rt false w) as [[cookie_file|e] w1]; [| discriminate ].
  destruct (pipeline rt request (slice_to 8 uuid +:+ "_video.mp4")
              (slice_to 8 uuid +:+ "_audio.m4a")
              (slice_to 8 uuid +:+ "_merged.mp4") cookie_file w1)
    as [[t|e] w2] eqn:Hp.
  - rewrite (attempt_ok _ _ _ _ _ _ _ Hp) in H.
    destruct (latin1 t) eqn:Hl; [| discriminate ].
    injection H as <- <- <- <-. by exists cookie_file, w1, t.
  - rewrite (attempt_raise _ _ _ _ _ _ _ Hp) in H. discriminate.
Qed.

End Download.

(** Claim C2 as stated fails: the audio download fails while the video
    file, already written, cannot be removed; the request is answered with
    status 500 and the message, and the video file is still there. *)
Lemma failure_cleanup_counterexample :
  let rt := example_runtime example_info true false 0 EmptyString in
  let '(r, w) := download_merged rt example_request example_uuid example_world in
  stage_failure rt example_request "01234567_video.mp4" "01234567_audio.m4a"
    "01234567_merged.mp4" None example_world
    (EngineError "ERROR: unable to download audio")
  ∧ r = HTTPException 500 "ERROR: unable to download audio"
  ∧ fs w !! "01234567_video.mp4" = Some (example_file 10000 true).
Proof.
  split; [| split; vm_compute; reflexivity ].
  eapply audio_fails; try reflexivity. discriminate.
Qed.

(** Claim C2, amended. For every download request that fails at a pipeline
    stage (metadata fetch, video download, audio download, combiner status
    other than 0) with exception [e], the response is an HTTP error with
    status 500 whose detail is the text of [e], and afterwards each of the
    job's three files is absent or is an entry whose removal raises (a
    locked file or a directory), that error having been suppressed. A path
    that is already absent is skipped without error. For the combiner, [e]
    is the exception with the message FFmpeg failed, then the decoded error
    output, when the error output is valid UTF-8, and the decoding error
    otherwise ([stage_failure]). *)
Theorem failure_response_and_cleanup (rt : runtime) (request : DownloadRequest)
  (uuid : string) (w : world) (cookie_file : option string) (w1 : world)
  (e : exn) :
  let job_id := slice_to 8 uuid in
  let video_file := job_id +:+ "_video.mp4" in
  let audio_file := job_id +:+ "_audio.m4a" in
  let output_file := job_id +:+ "_merged.mp4" in
  cookies rt false w = (Ok cookie_file, w1) →
  stage_failure rt request video_file audio_file output_file cookie_file w1 e →
  ∃ w',
    download_merged rt request uuid w = (HTTPException 500 (str_exn rt e), w')
    ∧ ∀ name, name ∈ [video_file; audio_file; output_file] →
        fs w' !! name = None
        ∨ ∃ e', unlink name (fs w') = Raise e'.
Proof.
  intros job_id video_file audio_file output_file Hc Hs.
  apply stage_failure_pipeline in Hs as [w2 Hp].
  eexists. split; [ by apply download_merged_raise with cookie_file w1 |].
  intros name Hin. cbn [fs with_fs].
  unfold unlink. rewrite !purge_lookup.
  rewrite bool_decide_eq_true_2 by done. simpl.
  destruct (fs w2 !! name) as [[|f]|]; simpl; eauto.
  destruct (locked f) eqn:El; simpl; rewrite ?El; eauto.
Qed.

Lemma failure_response_and_cleanup_witness :
  ∃ w',
    download_merged (example_runtime example_info false true 2 "invalid data found")
      example_request example_uuid example_world
    = (HTTPException 500 "FFmpeg failed: invalid data found", w')
    ∧ ∀ name, name ∈ ["01234567_video.mp4"; "01234567_audio.m4a";
                       "01234567_merged.mp4"] →
        fs w' !! name = None
        ∨ ∃ e', unlink name (fs w') = Raise e'.
Proof.
  apply (failure_response_and_cleanup
           (example_runtime example_info false true 2 "invalid data found")
           example_request example_uuid example_world None example_world
           (PlainException "FFmpeg failed: invalid data found")).
  - reflexivity.
  - eapply combiner_fails; try reflexivity; discriminate.
Defined.

(** The combiner leaves with status 1 and an error output that is not
    valid UTF-8: the request fails with the decoding error, whose text is
    the detail, and the files of the job are removed all the same. *)
Example failure_with_undecodable_output :
  let rt := example_runtime example_info false true 1 undecodable in
  let '(r, w) := download_merged rt example_request example_uuid example_world in
  stage_failure rt example_request "01234567_video.mp4" "01234567_audio.m4a"
    "01234567_merged.mp4" None example_world
    (Interp (UnicodeDecodeError [Byte.xff]))
  ∧ r = HTTPException 500 (exc_text rt (UnicodeDecodeError [Byte.xff]))
  ∧ fs w !! "01234567_video.mp4" = None
  ∧ fs w !! "01234567_audio.m4a" = None.
Proof.
  split; [| repeat split; vm_compute; reflexivity ].
  eapply combiner_fails_undecodable; try reflexivity; discriminate.
Qed.

(** The scenario of the specification: the combiner leaves with status 2. *)
Example failure_removes_intermediates :
  let '(_, w) := download_merged (example_runtime example_info false true 2 "invalid data found")
                   example_request example_uuid example_world in
  fs w !! "01234567_video.mp4" = None ∧ fs w !! "01234567_audio.m4a" = None.
Proof. vm_compute. done. Qed.

(* --------------------------------------------------------------------- *)
(** *** When the sweep runs *)
(* --------------------------------------------------------------------- *)

Section Calls.

Context (rt : runtime).

Lemma cookies_calls fallback w : calls (cookies rt fallback w).2 = calls w.
Proof.
  unfold cookies. destruct (truthy_str _); [| by destruct (_ && _) ].
  by destruct (write_text _ _ _ _).
Qed.

Lemma not_swept_nil : Swept ∉ @nil event.
Proof. apply not_elem_of_nil. Qed.

Lemma not_swept_snoc later e : Swept ∉ later → e ≠ Swept → Swept ∉ later ++ [e].
Proof.
  intros Hl He [?|Hin%list_elem_of_singleton]%elem_of_app; [ done |].
  by apply He.
Qed.

Lemma adds_no_sweep_refl w w' : calls w' = calls w → adds_no_sweep w w'.
Proof.
  intros H. exists []. split; [ by rewrite app_nil_r | apply not_swept_nil ].
Qed.

Lemma adds_no_sweep_called w w' fs' e :
  adds_no_sweep w w' → e ≠ Swept → adds_no_sweep w (called (with_fs w' fs') e).
Proof.
  intros (later & Hc & Hl) He. exists (later ++ [e]). simpl.
  rewrite Hc, app_assoc. split; [ done | by apply not_swept_snoc ].
Qed.

Lemma adds_no_sweep_with_fs w w' fs' :
  adds_no_sweep w w' → adds_no_sweep w (with_fs w' fs').
Proof. intros (later & Hc & Hl). by exists later. Qed.

Lemma pipeline_calls request v a o cookie_file w :
  adds_no_sweep w (pipeline rt request v a o cookie_file w).2.
Proof.
  unfold pipeline.
  destruct (extract_info rt _ _ _) as [r1 fs1].
  set (w1 := called (with_fs w fs1) _).
  assert (H1 : adds_no_sweep w w1)
    by (apply adds_no_sweep_called; [ by apply adds_no_sweep_refl | done ]).
  destruct (r1 ≫= title_of) as [t|]; [| done ].
  destruct (download rt _ _ (fs w1)) as [r2 fs2].
  set (w2 := called (with_fs w1 fs2) _).
  assert (H2 : adds_no_sweep w w2) by (by apply adds_no_sweep_called).
  destruct r2 as [[]|]; [| done ].
  destruct (download rt _ _ (fs w2)) as [r3 fs3].
  set (w3 := called (with_fs w2 fs3) _).
  assert (H3 : adds_no_sweep w w3) by (by apply adds_no_sweep_called).
  destruct r3 as [[]|]; [| done ].
  destruct (run_ffmpeg rt _ (fs w3)) as [r4 fs4].
  set (w4 := called (with_fs w3 fs4) _).
  assert (H4 : adds_no_sweep w w4) by (by apply adds_no_sweep_called).
  destruct r4 as [[rc stderr]|]; [| done ].
  destruct (negb (rc =? 0)); [ by destruct (decode rt stderr) |].
  destruct (unlink_if_exists v (fs w4)) as [fs5|]; [| done ].
  destruct (unlink_if_exists a fs5) as [fs6|]; simpl;
    by apply adds_no_sweep_with_fs.
Qed.

Lemma download_merged_calls request uuid w :
  adds_no_sweep w (download_merged rt request uuid w).2.
Proof.
  unfold download_merged.
  pose proof (cookies_calls false w) as Hc.
  destruct (cookies rt false w) as [[cookie_file|e] w1]; simpl in Hc;
    [| by apply adds_no_sweep_refl ].
  pose proof (pipeline_calls request (slice_to 8 uuid +:+ "_video.mp4")
                (slice_to 8 uuid +:+ "_audio.m4a")
                (slice_to 8 uuid +:+ "_merged.mp4") cookie_file w1)
    as (later & Hl & Hn).
  rewrite <- attempt_world in Hl.
  destruct (attempt _ _ _ _ _ _ _) as [[r|e] w2]; simpl in Hl;
    exists later; simpl; by rewrite Hl, Hc.
Qed.

Lemma get_formats_calls request w :
  ∃ later, calls (get_formats rt request w).2 = calls w ++ Swept :: later
           ∧ Swept ∉ later.
Proof.
  unfold get_formats.
  pose proof (cookies_calls true (cleanup_old_files w)) as Hc.
  destruct (cookies rt true (cleanup_old_files w)) as [[cookie_file|e] w1];
    simpl in Hc.
  - destruct (extract_info rt _ _ _) as [r fs1].
    exists [Extracted (u_url request)].
    split.
    + destruct (r ≫= catalog); simpl; by rewrite Hc, <- app_assoc.
    + by intros ?%list_elem_of_singleton.
  - exists []. split; [ done | apply not_swept_nil ].
Qed.

End Calls.

(** Claim C5 as stated fails: a download request, even a successful one,
    runs no sweep; a removable file last modified 10000 seconds ago is
    still there afterwards. *)
Lemma download_sweep_counterexample :
  let w := (download_merged (example_runtime example_info false true 0 EmptyString)
              example_request example_uuid example_world).2 in
  fs example_world !! "old.bin" = Some (example_file 0 false)
  ∧ now example_world - 0 > 3600
  ∧ fs w !! "old.bin" = Some (example_file 0 false)
  ∧ Swept ∉ calls w.
Proof.
  repeat split; try (vm_compute; reflexivity).
  apply (bool_decide_unpack _). vm_compute. exact I.
Qed.

(** Claim C5, amended. Every catalog request runs the sweep exactly once,
    as the first call of the handler, before the extraction engine is
    called; a download request runs no sweep. The sweep removes the
    regular files of the workspace directory last modified more than 3600
    seconds ago, except those whose removal raises (the error is
    suppressed and the file stays); younger files, directories and all
    other entries are left as they were. *)
Theorem sweep_on_catalog_requests :
  (∀ rt request w,
     ∃ later, calls (get_formats rt request w).2 = calls w ++ Swept :: later
              ∧ Swept ∉ later)
  ∧ (∀ rt request uuid w,
       ∃ later, calls (download_merged rt request uuid w).2 = calls w ++ later
                ∧ Swept ∉ later)
  ∧ (∀ w name,
       fs (cleanup_old_files w) !! name
       = match fs w !! name with
         | Some (Regular f) =>
             if (now w - mtime f >? 3600) && negb (locked f) then None
             else Some (Regular f)
         | e => e
         end).
Proof.
  split; [ apply get_formats_calls |].
  split; [ apply download_merged_calls |].
  intros w name. rewrite cleanup_old_files_lookup.
  by destruct (fs w !! name) as [[|f]|].
Qed.

(* --------------------------------------------------------------------- *)
(** *** The result streamer *)
(* --------------------------------------------------------------------- *)

Section Streamer.

Implicit Types (fs : fsys) (rest : list Byte.byte).

Lemma CHUNK_pos : (0 < CHUNK)%nat.
Proof. unfold CHUNK. lia. Qed.

Lemma CHUNK_bytes : Z.of_nat CHUNK = 1048576.
Proof. unfold CHUNK. lia. Qed.

Lemma take_CHUNK_nil rest : take CHUNK rest = [] → rest = [].
Proof.
  pose proof CHUNK_pos. destruct CHUNK; [ lia |]. by destruct rest.
Qed.

Lemma resume_yield p rest fs :
  rest ≠ [] →
  resume p rest fs = (Yield (take CHUNK rest), Suspended p (drop CHUNK rest), fs).
Proof.
  intros Hne. unfold resume.
  destruct (take CHUNK rest) eqn:E; [| done ].
  by apply take_CHUNK_nil in E.
Qed.

Lemma resume_stop p fs : resume p [] fs = (StopIteration, Finished, try_unlink p fs).
Proof. unfold resume. by rewrite take_nil. Qed.

Lemma consume_suspended n : ∀ p rest fs,
  (length rest < n)%nat →
  ∃ chunks, consume n (Suspended p rest) fs = (chunks, Finished, try_unlink p fs)
            ∧ chunked rest chunks.
Proof.
  induction n as [|n IH]; intros p rest fs Hn; [ lia |].
  cbn [consume next].
  destruct rest as [|b rest'] eqn:E.
  - rewrite resume_stop. exists []. repeat split; [ constructor |].
    intros k c Hk. by rewrite lookup_nil in Hk.
  - rewrite <- E in *. assert (Hne : rest ≠ []) by (by rewrite E).
    rewrite resume_yield by done.
    destruct (IH p (drop CHUNK rest) fs) as (chunks & -> & Hcat & Hall & Hlast).
    { rewrite length_drop. pose proof CHUNK_pos.
      assert (0 < length rest)%nat by (rewrite E; cbn [length]; lia). lia. }
    exists (take CHUNK rest :: chunks). split; [ done |]. split; [| split ].
    + cbn [concat]. by rewrite Hcat, take_drop.
    + constructor; [| done ]. split.
      * intros Ht. by apply take_CHUNK_nil in Ht.
      * rewrite length_take. lia.
    + intros [|k] c Hk Hlen; cbn [length] in Hlen.
      * apply (inj Some) in Hk as <-. rewrite length_take.
        destruct chunks as [|c' chunks']; [ cbn [length] in Hlen; lia |].
        apply Forall_cons in Hall as [[Hc' _] _].
        assert (drop CHUNK rest ≠ []) as Hd.
        { intros Hd. rewrite Hd in Hcat. cbn [concat] in Hcat.
          apply app_eq_nil in Hcat as [? _]. done. }
        assert (CHUNK < length rest)%nat.
        { destruct (decide (CHUNK < length rest)%nat); [ done |].
          exfalso. apply Hd, drop_ge. lia. }
        lia.
      * apply (Hlast k c); [ exact Hk | lia ].
Qed.

Lemma consume_unstarted n p fs f :
  fs !! p = Some (Regular f) →
  consume (S n) (Unstarted p) fs = consume (S n) (Suspended p (content f)) fs.
Proof. intros H. cbn [consume next]. by rewrite H. Qed.

Lemma abort_suspended n : ∀ p rest fs,
  (n * CHUNK < length rest)%nat →
  ∃ chunks, consume n (Suspended p rest) fs = (chunks, Finished, fs)
            ∧ length chunks = n.
Proof.
  induction n as [|n IH]; intros p rest fs Hn.
  - by exists [].
  - cbn [consume next].
    assert (rest ≠ []) by (intros ->; cbn [length] in Hn; lia).
    rewrite resume_yield by done.
    destruct (IH p (drop CHUNK rest) fs) as (chunks & -> & Hlen).
    { rewrite length_drop. lia. }
    exists (take CHUNK rest :: chunks). split; [ done |].
    cbn [length]. by rewrite Hlen.
Qed.

End Streamer.

(** A consumer that goes away while bytes are still unread leaves the
    output file in place. *)
Lemma abort_leaves_file (fs : fsys) (output_file : string) (f : file)
  (n : nat) :
  fs !! output_file = Some (Regular f) →
  (n * CHUNK < length (content f))%nat →
  ∃ chunks,
    consume n (Unstarted output_file) fs = (chunks, Finished, fs)
    ∧ length chunks = n
    ∧ exists_ output_file fs = true.
Proof.
  intros Hf Hn.
  assert (exists_ output_file fs = true) as Hex.
  { unfold exists_. apply bool_decide_eq_true_2. by rewrite Hf. }
  destruct n as [|n].
  - by exists [].
  - rewrite (consume_unstarted n output_file fs f Hf).
    destruct (abort_suspended (S n) output_file (content f) fs Hn)
      as (chunks & ? & ?).
    by exists chunks.
Qed.

(** A consumer that reads to the end has the output file removed, unless
    its removal raises. *)
Lemma complete_stream_unlinks (fs : fsys) (output_file : string) (f : file)
  (n : nat) :
  fs !! output_file = Some (Regular f) →
  (length (content f) < n)%nat →
  (consume n (Unstarted output_file) fs).2 = try_unlink output_file fs.
Proof.
  intros Hf Hn. destruct n as [|n]; [ lia |].
  rewrite (consume_unstarted n output_file fs f Hf).
  by destruct (consume_suspended (S n) output_file (content f) fs Hn)
    as (chunks & -> & _).
Qed.

(** Claim C1 fails on the code. The output file is one byte longer than a
    chunk; the consumer takes one chunk and goes away. The generator is
    closed, nothing was removed and the output file still exists: the
    removal after the [with] block is skipped. *)
Theorem abort_keeps_output_file :
  ∃ chunks,
    consume 1 (Unstarted "01234567_merged.mp4")
      {["01234567_merged.mp4" := Regular long_file]}
    = (chunks, Finished, {["01234567_merged.mp4" := Regular long_file]})
    ∧ length chunks = 1%nat
    ∧ exists_ "01234567_merged.mp4"
        {["01234567_merged.mp4" := Regular long_file]} = true.
Proof.
  apply (abort_leaves_file _ _ long_file 1).
  - reflexivity.
  - unfold long_file. cbn [content]. rewrite length_replicate. lia.
Qed.

(** Claim C9. For every output file, a consumer that asks for more items
    than the file has bytes gets a finite sequence of chunks and then the
    end of the iteration; the chunks concatenated are the bytes of the
    file; every chunk is non-empty and at most 1048576 bytes long, and
    every chunk but the last is exactly 1048576 bytes long. *)
Theorem streamer_chunks (fs : fsys) (output_file : string) (f : file) (n : nat) :
  fs !! output_file = Some (Regular f) →
  (length (content f) < n)%nat →
  ∃ chunks fs',
    consume n (Unstarted output_file) fs = (chunks, Finished, fs')
    ∧ concat chunks = content f
    ∧ Forall (λ c, c ≠ [] ∧ Z.of_nat (length c) ≤ 1048576) chunks
    ∧ ∀ k c, chunks !! k = Some c → (S k < length chunks)%nat →
             Z.of_nat (length c) = 1048576.
Proof.
  intros Hf Hn. destruct n as [|n]; [ lia |].
  rewrite (consume_unstarted n output_file fs f Hf).
  destruct (consume_suspended (S n) output_file (content f) fs Hn)
    as (chunks & -> & Hcat & Hall & Hlast).
  exists chunks, (try_unlink output_file fs).
  split; [ done |]. split; [ done |]. split.
  - eapply Forall_impl; [ exact Hall |]. simpl.
    intros c [? ?]. pose proof CHUNK_bytes. split; [ done | lia ].
  - intros k c Hk Hlen. rewrite (Hlast k c Hk Hlen). apply CHUNK_bytes.
Qed.

Lemma streamer_chunks_witness :
  ∃ chunks fs',
    consume 4 (Unstarted "01234567_merged.mp4")
      {["01234567_merged.mp4" := Regular short_file]}
    = (chunks, Finished, fs')
    ∧ concat chunks = content short_file
    ∧ Forall (λ c, c ≠ [] ∧ Z.of_nat (length c) ≤ 1048576) chunks
    ∧ ∀ k c, chunks !! k = Some c → (S k < length chunks)%nat →
             Z.of_nat (length c) = 1048576.
Proof.
  apply (streamer_chunks _ _ short_file 4).
  - reflexivity.
  - unfold short_file. cbn [content length]. lia.
Defined.

(* --------------------------------------------------------------------- *)
(** *** The suggested file name *)
(* --------------------------------------------------------------------- *)

Section Filename.

Context (rt : runtime) (request : DownloadRequest).

Lemma pipeline_ok v a o cookie_file w t w' :
  pipeline rt request v a o cookie_file w = (Ok t, w') →
  ∃ i fs1,
    extract_info rt (opts_info request cookie_file) (url request) (fs w)
    = (Ok i, fs1)
    ∧ title_of i = Ok t.
Proof.
  unfold pipeline.
  destruct (extract_info rt _ _ _) as [[i|e] fs1]; cbn [mbind result_bind];
    [| discriminate ].
  destruct (title_of i) as [t'|] eqn:Ht; [| discriminate ].
  destruct (download rt _ _ _) as [[[]|] fs2]; [| discriminate ].
  destruct (download rt _ _ _) as [[[]|] fs3]; [| discriminate ].
  destruct (run_ffmpeg rt _ _) as [[[rc stderr]|] fs4]; [| discriminate ].
  destruct (negb (rc =? 0)); [ by destruct (decode rt stderr) |].
  destruct (unlink_if_exists v _); [| discriminate ].
  destruct (unlink_if_exists a _); [| discriminate ].
  intros [= <- _]. eauto.
Qed.

Lemma title_of_inv i t :
  title_of i = Ok t →
  i_title i ≠ Null
  ∧ t = sanitize_filename (default (lit "video") (get (i_title i))).
Proof.
  unfold title_of. destruct (i_title i); intros [= <-]; by split.
Qed.

End Filename.

(** Claim C10. For every download request answered with the stream, the
    Content-Disposition header names the file: the sanitized title of the
    extracted metadata followed by .mp4, the title being the word video
    when the metadata has no title key, which makes the name video.mp4. *)
Theorem suggested_filename (rt : runtime) (request : DownloadRequest)
  (uuid : string) (w : world) (body : generator) (media_type : string)
  (headers : gmap string utext) (w' : world) :
  download_merged rt request uuid w
  = (StreamingResponse body media_type headers, w') →
  ∃ cookie_file w1 i fs1,
    cookies rt false w = (Ok cookie_file, w1)
    ∧ extract_info rt (opts_info request cookie_file) (url request) (fs w1)
      = (Ok i, fs1)
    ∧ i_title i ≠ Null
    ∧ headers !! "Content-Disposition"
      = Some (lit "attachment; filename=" ++ lit quote ++
              (sanitize_filename (default (lit "video") (get (i_title i)))
               ++ lit ".mp4")
              ++ lit quote)
    ∧ (i_title i = Missing →
       headers !! "Content-Disposition"
       = Some (lit "attachment; filename=" ++ lit quote ++ lit "video.mp4"
               ++ lit quote)).
Proof.
  intros H.
  apply download_merged_stream in H
    as (cookie_file & w1 & t & Hc & Hp & _ & _ & _ & ->).
  apply pipeline_ok in Hp as (i & fs1 & Hi & Ht).
  apply title_of_inv in Ht as [Hn ->].
  exists cookie_file, w1, i, fs1.
  split; [ done |]. split; [ done |]. split; [ done |].
  rewrite lookup_insert_eq. split; [ done |].
  by intros ->.
Qed.

Lemma suggested_filename_witness :
  ∃ cookie_file w1 i fs1,
    cookies (example_runtime untitled_info false true 0 EmptyString) false
      example_world
    = (Ok cookie_file, w1)
    ∧ extract_info (example_runtime untitled_info false true 0 EmptyString)
        (opts_info example_request cookie_file) (url example_request) (fs w1)
      = (Ok i, fs1)
    ∧ i_title i ≠ Null
    ∧ (<["Content-Disposition" :=
           lit "attachment; filename=" ++ lit quote ++ lit "video.mp4"
           ++ lit quote]>
       (<["Content-Type" := lit "video/mp4"]> ∅) : gmap string utext)
      !! "Content-Disposition"
      = Some (lit "attachment; filename=" ++ lit quote ++
              (sanitize_filename (default (lit "video") (get (i_title i)))
               ++ lit ".mp4")
              ++ lit quote)
    ∧ (i_title i = Missing →
       (<["Content-Disposition" :=
            lit "attachment; filename=" ++ lit quote ++ lit "video.mp4"
            ++ lit quote]>
        (<["Content-Type" := lit "video/mp4"]> ∅) : gmap string utext)
       !! "Content-Disposition"
       = Some (lit "attachment; filename=" ++ lit quote ++ lit "video.mp4"
               ++ lit quote)).
Proof.
  apply (suggested_filename
           (example_runtime untitled_info false true 0 EmptyString)
           example_request example_uuid example_world
           (Unstarted "01234567_merged.mp4") "video/mp4" _
           (download_merged
              (example_runtime untitled_info false true 0 EmptyString)
              example_request example_uuid example_world).2).
  vm_compute. reflexivity.
Defined.

(** A title with characters to strip. *)
Example titled_filename :
  (download_merged (example_runtime example_info false true 0 EmptyString)
     example_request example_uuid example_world).1
  = StreamingResponse (Unstarted "01234567_merged.mp4") "video/mp4"
      (<["Content-Disposition" :=
           lit "attachment; filename=" ++ lit quote ++ lit "MyVideoTitle.mp4"
           ++ lit quote]>
       (<["Content-Type" := lit "video/mp4"]> ∅)).
Proof. vm_compute. reflexivity. Qed.

(** With no title key the title is the word video. *)
Example untitled_filename :
  title_of untitled_info = Ok (lit "video").
Proof. reflexivity. Qed.

(* --------------------------------------------------------------------- *)
(** *** More on the title sanitizer *)
(* --------------------------------------------------------------------- *)

Section SanitizerMore.

Lemma chars_inj s1 s2 : chars s1 = chars s2 → s1 = s2.
Proof. intros H. by rewrite <- (text_chars s1), <- (text_chars s2), H. Qed.

Lemma chars_app s1 s2 : chars (s1 +:+ s2) = chars s1 ++ chars s2.
Proof. induction s1 as [|c s1 IH]; simpl; [ done | by rewrite IH ]. Qed.

Lemma filter_nil_iff {A} (P : A → Prop) `{!∀ x, Decision (P x)} (l : list A) :
  filter P l = [] ↔ Forall (λ x, ¬ P x) l.
Proof.
  induction l as [|x l IH]; [ by split; [ constructor |] |].
  rewrite filter_cons. destruct (decide (P x)) as [Hx|Hx].
  - split; [ done |]. by intros [? _]%Forall_cons.
  - rewrite IH. split; [ by constructor |]. by intros [_ ?]%Forall_cons.
Qed.

End SanitizerMore.

(** Property X1. The texts [sanitize_filename] leaves unchanged are exactly
    those of at most 200 characters with none of the nine characters. *)
Theorem sanitize_filename_fixed_point (name : utext) :
  sanitize_filename name = name
  ↔ Forall (λ c, c ∉ INVALID_CHARS) name
    ∧ (length name ≤ 200)%nat.
Proof.
  split.
  - intros H. split.
    + rewrite <- H.
      eapply Forall_impl; [ apply sanitize_filename_valid |].
      intros c. apply is_invalid_false.
    + rewrite <- H. apply length_sanitize_filename.
  - intros [Hall Hlen]. unfold sanitize_filename, re_sub_invalid.
    rewrite filter_all_id.
    + by apply take_ge.
    + eapply Forall_impl; [ exact Hall |]. intros c. apply is_invalid_false.
Qed.

(** Property X2. The sanitized title is empty exactly when every character
    of the title is one of the nine characters (in particular for the
    empty title); the suggested file name is then the bare extension. *)
Theorem sanitize_filename_empty (name : utext) :
  (sanitize_filename name = []
   ↔ Forall (λ c, c ∈ INVALID_CHARS) name)
  ∧ (Forall (λ c, c ∈ INVALID_CHARS) name →
     sanitize_filename name ++ lit ".mp4" = lit ".mp4").
Proof.
  assert (sanitize_filename name = []
          ↔ Forall (λ c, c ∈ INVALID_CHARS) name) as Hiff.
  { unfold sanitize_filename, re_sub_invalid. split.
    - intros H.
      assert (filter (λ c, is_invalid c = false) name = []) as Hf.
      { destruct (filter _ name); [ done | discriminate ]. }
      apply filter_nil_iff in Hf.
      eapply Forall_impl; [ exact Hf |]. intros c Hc.
      destruct (decide (c ∈ INVALID_CHARS)); [ done |].
      exfalso. by apply Hc, is_invalid_false.
    - intros Hall.
      replace (filter _ name) with (@nil N); [ done |].
      symmetry. apply filter_nil_iff.
      eapply Forall_impl; [ exact Hall |]. intros c Hc Hn.
      by apply is_invalid_false in Hn. }
  split; [ exact Hiff |].
  intros Hall. apply Hiff in Hall. by rewrite Hall.
Qed.

Lemma sanitize_filename_empty_witness :
  sanitize_filename (lit "<:?*>") ++ lit ".mp4" = lit ".mp4".
Proof.
  apply (proj2 (sanitize_filename_empty (lit "<:?*>"))).
  apply (bool_decide_unpack _). vm_compute. exact I.
Defined.

(** Property X3. The sanitized title keeps the order of the characters: it
    is a subsequence of the title, and so never longer than it. *)
Theorem sanitize_filename_sublist (name : utext) :
  sanitize_filename name `sublist_of` name
  ∧ (length (sanitize_filename name) ≤ length name)%nat.
Proof.
  assert (sanitize_filename name `sublist_of` name) as Hs.
  { unfold sanitize_filename, re_sub_invalid.
    transitivity (filter (λ c, is_invalid c = false) name).
    - apply sublist_take.
    - apply sublist_filter. }
  split; [ done |]. by apply sublist_length.
Qed.

(* --------------------------------------------------------------------- *)
(** *** More on the catalog *)
(* --------------------------------------------------------------------- *)

Section CatalogMore.

Lemma catalog_inv i r :
  catalog i = Ok r →
  ∃ built t,
    unsorted_formats i = Ok built
    ∧ as_str "FormatsResponse" (i_title i) (Has (lit "Unknown Title")) = Ok t
    ∧ r = {| status := "success"; title := t;
             thumbnail := if truthy_str (thumbnail_of i)
                          then default EmptyString (thumbnail_of i)
                          else EmptyString;
             formats := sort_reverse height built |}.
Proof.
  unfold catalog. intros H.
  destruct (unsorted_formats i) as [built|]; simpl in H; [| discriminate ].
  destruct (as_str _ _ _) as [t|]; simpl in H; [| discriminate ].
  injection H as <-. by exists built, t.
Qed.

Lemma truthy_str_false_text (v : option string) :
  truthy_str v = false → default EmptyString v = EmptyString.
Proof.
  destruct v as [s|]; simpl; [| done ].
  intros H. apply negb_false_iff, String.eqb_eq in H. done.
Qed.

Lemma text_or_empty (v : option string) :
  (if truthy_str v then default EmptyString v else EmptyString)
  = default EmptyString v.
Proof.
  destruct (truthy_str v) eqn:E; [ done |].
  symmetry. by apply truthy_str_false_text.
Qed.

End CatalogMore.

(** Property X4. The thumbnail of a catalog is never [None]: it is the
    explicit thumbnail when that is a non-empty text; otherwise the url of
    the last entry of a non-empty thumbnails list (the empty text when
    that entry has no url); otherwise the empty text. *)
Theorem catalog_thumbnail (i : info) (r : FormatsResponse) :
  catalog i = Ok r →
  (∀ s, i_thumbnail i = Has s → s ≠ EmptyString → thumbnail r = s)
  ∧ (truthy_str (get (i_thumbnail i)) = false →
     ∀ ts t, i_thumbnails i = Has (ts ++ [t]) →
             thumbnail r = default EmptyString (get (t_url t)))
  ∧ (truthy_str (get (i_thumbnail i)) = false →
     get (i_thumbnails i) = None ∨ i_thumbnails i = Has [] →
     thumbnail r = EmptyString).
Proof.
  intros (built & t & _ & _ & ->)%catalog_inv. cbn [thumbnail].
  rewrite text_or_empty. unfold thumbnail_of.
  split; [| split ].
  - intros s Hs Hne. rewrite Hs. simpl.
    apply String.eqb_neq in Hne. by rewrite Hne.
  - intros Hno ts t' Hts. rewrite Hno, Hts. simpl.
    destruct (ts ++ [t']) eqn:E; [ by destruct ts |]. rewrite <- E.
    by rewrite last_snoc.
  - intros Hno [Hts|Hts]; rewrite Hno, Hts; simpl;
      by apply truthy_str_false_text.
Qed.

Lemma catalog_thumbnail_witness :
  (∀ s, i_thumbnail example_info_thumbnails = Has s → s ≠ EmptyString →
        thumbnail example_catalog_thumbnails = s)
  ∧ (truthy_str (get (i_thumbnail example_info_thumbnails)) = false →
     ∀ ts t, i_thumbnails example_info_thumbnails = Has (ts ++ [t]) →
             thumbnail example_catalog_thumbnails
             = default EmptyString (get (t_url t)))
  ∧ (truthy_str (get (i_thumbnail example_info_thumbnails)) = false →
     get (i_thumbnails example_info_thumbnails) = None
     ∨ i_thumbnails example_info_thumbnails = Has [] →
     thumbnail example_catalog_thumbnails = EmptyString).
Proof.
  apply (catalog_thumbnail example_info_thumbnails example_catalog_thumbnails).
  vm_compute. reflexivity.
Defined.

(** Property X5. A result with no formats (key missing or empty list) and
    no usable direct url still gives a catalog: status success, no formats,
    and the title of the result, Unknown Title when the key is missing. The
    title is not sanitized. *)
Theorem catalog_without_formats (i : info) :
  raw_formats_of i = Some [] →
  truthy_str (get (i_url i)) = false →
  i_title i ≠ Null →
  ∃ r,
    catalog i = Ok r
    ∧ status r = "success"
    ∧ formats r = []
    ∧ title r = default (lit "Unknown Title") (get (i_title i)).
Proof.
  intros Hraw Hurl Ht. unfold catalog, unsorted_formats.
  rewrite Hraw, Hurl. simpl.
  destruct (i_title i) as [| |t]; [| done |]; simpl; eauto.
Qed.

Lemma catalog_without_formats_witness :
  ∃ r,
    catalog example_info_thumbnails = Ok r
    ∧ status r = "success"
    ∧ formats r = []
    ∧ title r
      = default (lit "Unknown Title") (get (i_title example_info_thumbnails)).
Proof.
  apply (catalog_without_formats example_info_thumbnails);
    [ reflexivity | reflexivity | discriminate ].
Defined.

Section Descriptors.

Lemma make_format_ok_iff f label :
  (∃ d, make_format f label = Ok d) ↔ well_formed f.
Proof.
  unfold make_format, well_formed, note_of. split.
  - intros [d H].
    destruct (f_format_id f) as [| |fid]; simpl in H; try discriminate.
    destruct (f_ext f) as [| |e]; simpl in H; try discriminate;
      (split; [ eauto |]; split; [ done |]);
      destruct (f_format_note f); try done;
      by destruct (truthy_num (get (f_tbr f))).
  - intros ([fid ->] & He & Hn). simpl.
    destruct (f_ext f) as [| |e]; [| done |]; simpl;
      (destruct (truthy_num (get (f_tbr f))) eqn:Et; simpl; [ eauto |]);
      destruct (f_format_note f); simpl; eauto;
      by specialize (Hn eq_refl).
Qed.

Lemma collect_ok_iff raw : ∀ acc,
  (∃ out, collect raw acc = Ok out) ↔ Forall (λ f, kept f → well_formed f) raw.
Proof.
  induction raw as [|f raw IH]; intros acc; cbn [collect].
  - split; [ constructor | eauto ].
  - pose proof (type_label_table f) as Ht. rewrite Forall_cons.
    destruct (type_label f) as [label|] eqn:El.
    + assert (kept f) as Hk by (unfold kept; congruence).
      destruct (make_format f label) as [d|e] eqn:Ed; simpl.
      * rewrite IH. split; [| by intros [_ ?] ].
        intros H. split; [| done ]. intros _.
        apply (make_format_ok_iff f label). eauto.
      * split; [ by intros [? ?] |]. intros [Hw _].
        apply Hw, (make_format_ok_iff f label) in Hk as [d Hd]. congruence.
    + rewrite IH. split; [| by intros [_ ?] ].
      intros H. split; [| done ]. unfold kept. congruence.
Qed.

Lemma collect_described raw : ∀ acc out,
  collect raw acc = Ok out →
  ∀ d, d ∈ out → d ∈ acc ∨ ∃ f, f ∈ raw ∧ described_by f d.
Proof.
  induction raw as [|f raw IH]; intros acc out H d Hd; cbn [collect] in H.
  - injection H as <-. by left.
  - destruct (type_label f) as [label|] eqn:El.
    + destruct (make_format f label) as [d'|] eqn:Ed; simpl in H;
        [| discriminate ].
      destruct (IH _ _ H d Hd) as [Hin|(g & Hg & Hdg)].
      * apply elem_of_app in Hin as [Hin|Hin%list_elem_of_singleton];
          [ by left |].
        subst d'. right. exists f. split; [ left |]. by exists label.
      * right. exists g. split; [ by right | done ].
    + destruct (IH _ _ H d Hd) as [Hin|(g & Hg & Hdg)]; [ by left |].
      right. exists g. split; [ by right | done ].
Qed.

Lemma catalog_descriptors i raw r d :
  raw_formats_of i = Some raw → raw ≠ [] →
  catalog i = Ok r → d ∈ formats r →
  ∃ f, f ∈ raw ∧ described_by f d.
Proof.
  intros Hraw Hne (built & t & Hb & _ & ->)%catalog_inv Hd.
  cbn [formats] in Hd. rewrite sort_reverse_perm in Hd.
  unfold unsorted_formats in Hb. rewrite Hraw in Hb.
  destruct raw as [|g raw]; [ done |]. cbn [mbind result_bind] in Hb.
  destruct (collect_described _ _ _ Hb d Hd) as [Hin|?]; [| done ].
  by apply elem_of_nil in Hin.
Qed.

Lemma lstrip_keeps c l : is_space c = false → lstrip (c :: l) = c :: l.
Proof. intros H. simpl. by rewrite H. Qed.

Lemma lstrip_drops c l : is_space c = true → lstrip (c :: l) = lstrip l.
Proof. intros H. simpl. by rewrite H. Qed.

Lemma strip_list_keeps (c e : ascii) (m : list ascii) :
  is_space c = false → is_space e = false →
  rev (lstrip (rev (lstrip (c :: m ++ [e])))) = c :: m ++ [e].
Proof.
  intros Hc He. rewrite lstrip_keeps by done.
  assert (rev (c :: m ++ [e]) = e :: rev (c :: m)) as Hr.
  { change (c :: m ++ [e]) with ((c :: m) ++ [e]). by rewrite rev_app_distr. }
  rewrite Hr, lstrip_keeps by done.
  by rewrite <- Hr, rev_involutive.
Qed.

(** The bit rate suffix after a note that is empty or is the word None. *)
Lemma strip_rate (n : string) :
  strip (EmptyString +:+ " (" +:+ n +:+ "kbps)") = "(" +:+ n +:+ "kbps)"
  ∧ strip ("None" +:+ " (" +:+ n +:+ "kbps)") = "None (" +:+ n +:+ "kbps)".
Proof.
  split; apply chars_inj; unfold strip; rewrite chars_text, !chars_app.
  - change (chars EmptyString) with (@nil ascii).
    change (chars " (") with [" "%char; "("%char].
    change (chars "(") with ["("%char].
    change (chars "kbps)") with (chars "kbps" ++ [")"%char]).
    cbn [app]. rewrite (lstrip_drops " "%char) by reflexivity.
    rewrite (app_assoc (chars n)).
    by rewrite strip_list_keeps by reflexivity.
  - change (chars "None") with ("N"%char :: chars "one").
    change (chars "None (") with ("N"%char :: chars "one (").
    change (chars " (") with [" "%char; "("%char].
    change (chars "kbps)") with (chars "kbps" ++ [")"%char]).
    replace (("N"%char :: chars "one") ++ [" "%char; "("%char]
             ++ chars n ++ chars "kbps" ++ [")"%char])
      with ("N"%char :: (chars "one (" ++ chars n ++ chars "kbps") ++ [")"%char]).
    + rewrite strip_list_keeps by reflexivity.
      cbn [app]. f_equal. by rewrite <- !app_assoc.
    + cbn [app chars list_ascii_of_string]. by rewrite <- !app_assoc.
Qed.

End Descriptors.

Section DescriptorFields.

Lemma make_format_inv f label d :
  make_format f label = Ok d →
  f_format_id f = Has (format_id d)
  ∧ note_of f = Some (note d)
  ∧ resolution d = resolution_of f
  ∧ height d = height_or_0 f.
Proof.
  unfold make_format. intros H.
  destruct (f_format_id f) as [| |fid]; simpl in H; try discriminate.
  destruct (as_str "FormatInfo" (f_ext f) (Has EmptyString)); simpl in H;
    [| discriminate ].
  destruct (note_of f); simpl in H; [| discriminate ].
  by injection H as <-.
Qed.

Lemma truthy_num_true (v : field Q) q :
  v = Has q → Qnum q ≠ 0 → truthy_num (get v) = true.
Proof. intros -> Hq. simpl. by apply negb_true_iff, Z.eqb_neq. Qed.

End DescriptorFields.

(** Property X7. In a catalog built from a listing, the note of a
    descriptor whose record has a bit rate other than 0 is the note of the
    record, a space and the bit rate truncated to an integer between
    brackets, with kbps, the whole stripped of white space at both ends:
    just the bracket when the record has no note, and the word None before
    it when the note is [None]. Without a bit rate the note is the
    record's note, empty when the key is missing. *)
Theorem catalog_note (i : info) (raw : list raw_format) (r : FormatsResponse)
  (d : FormatInfo) :
  raw_formats_of i = Some raw → raw ≠ [] →
  catalog i = Ok r → d ∈ formats r →
  ∃ f,
    f ∈ raw
    ∧ f_format_id f = Has (format_id d)
    ∧ (∀ q, f_tbr f = Has q → Qnum q ≠ 0 →
         note d
         = match f_format_note f with
           | Missing => "(" +:+ pretty (int_of q) +:+ "kbps)"
           | Null => "None (" +:+ pretty (int_of q) +:+ "kbps)"
           | Has s => strip (s +:+ " (" +:+ pretty (int_of q) +:+ "kbps)")
           end)
    ∧ (truthy_num (get (f_tbr f)) = false →
         f_format_note f = Has (note d)
         ∨ f_format_note f = Missing ∧ note d = EmptyString).
Proof.
  intros Hraw Hne Hcat Hd.
  destruct (catalog_descriptors i raw r d Hraw Hne Hcat Hd)
    as (f & Hf & label & _ & Hm).
  apply make_format_inv in Hm as (Hid & Hnote & _ & _).
  exists f. split; [ done |]. split; [ done |].
  unfold note_of in Hnote. split.
  - intros q Hq Hq0. rewrite (truthy_num_true _ q Hq Hq0) in Hnote.
    rewrite Hq in Hnote. simpl in Hnote. injection Hnote as <-.
    destruct (strip_rate (pretty (int_of q))) as [H1 H2].
    destruct (f_format_note f); simpl; [ exact H1 | exact H2 | done ].
  - intros Hno. rewrite Hno in Hnote.
    destruct (f_format_note f); [| discriminate |]; injection Hnote as <-;
      [ by right | by left ].
Qed.

Lemma catalog_note_witness :
  ∃ f,
    f ∈ [example_audio_format]
    ∧ f_format_id f = Has (format_id example_audio_descriptor)
    ∧ (∀ q, f_tbr f = Has q → Qnum q ≠ 0 →
         note example_audio_descriptor
         = match f_format_note f with
           | Missing => "(" +:+ pretty (int_of q) +:+ "kbps)"
           | Null => "None (" +:+ pretty (int_of q) +:+ "kbps)"
           | Has s => strip (s +:+ " (" +:+ pretty (int_of q) +:+ "kbps)")
           end)
    ∧ (truthy_num (get (f_tbr f)) = false →
         f_format_note f = Has (note example_audio_descriptor)
         ∨ f_format_note f = Missing
           ∧ note example_audio_descriptor = EmptyString).
Proof.
  apply (catalog_note example_info_audio [example_audio_format]
           example_catalog_audio example_audio_descriptor).
  - reflexivity.
  - discriminate.
  - vm_compute. reflexivity.
  - left.
Defined.

(** Property X8. In a catalog built from a listing, the resolution of a
    descriptor is the resolution text of its record when that is not
    empty; otherwise the width, a question mark when the key is missing,
    the letter x and the height of the descriptor. A record with neither
    resolution nor width nor height so gets ?x0, with height 0. *)
Theorem catalog_resolution (i : info) (raw : list raw_format)
  (r : FormatsResponse) (d : FormatInfo) :
  raw_formats_of i = Some raw → raw ≠ [] →
  catalog i = Ok r → d ∈ formats r →
  ∃ f,
    f ∈ raw
    ∧ f_format_id f = Has (format_id d)
    ∧ (∀ s, f_resolution f = Has s → s ≠ EmptyString → resolution d = s)
    ∧ (truthy_str (get (f_resolution f)) = false →
         resolution d
         = fmt_or_question (f_width f) +:+ "x" +:+ pretty (height d))
    ∧ (truthy_str (get (f_resolution f)) = false →
       f_width f = Missing → truthy_int (get (f_height f)) = false →
         resolution d = "?x0" ∧ height d = 0).
Proof.
  intros Hraw Hne Hcat Hd.
  destruct (catalog_descriptors i raw r d Hraw Hne Hcat Hd)
    as (f & Hf & label & _ & Hm).
  apply make_format_inv in Hm as (Hid & _ & Hres & Hh).
  exists f. split; [ done |]. split; [ done |].
  unfold resolution_of in Hres. rewrite Hres, Hh. split; [| split ].
  - intros s Hs Hne'. rewrite Hs. simpl.
    apply String.eqb_neq in Hne'. by rewrite Hne'.
  - by intros ->.
  - intros -> -> Hno. unfold height_or_0. by rewrite Hno.
Qed.

Lemma catalog_resolution_witness :
  ∃ f,
    f ∈ [example_audio_format]
    ∧ f_format_id f = Has (format_id example_audio_descriptor)
    ∧ (∀ s, f_resolution f = Has s → s ≠ EmptyString →
            resolution example_audio_descriptor = s)
    ∧ (truthy_str (get (f_resolution f)) = false →
         resolution example_audio_descriptor
         = fmt_or_question (f_width f) +:+ "x" +:+
           pretty (height example_audio_descriptor))
    ∧ (truthy_str (get (f_resolution f)) = false →
       f_width f = Missing → truthy_int (get (f_height f)) = false →
         resolution example_audio_descriptor = "?x0"
         ∧ height example_audio_descriptor = 0).
Proof.
  apply (catalog_resolution example_info_audio [example_audio_format]
           example_catalog_audio example_audio_descriptor).
  - reflexivity.
  - discriminate.
  - vm_compute. reflexivity.
  - left.
Defined.

(** Property X6. A listing gives a catalog exactly when the title is not
    [None] and every record the table keeps has a format id, an ext that
    is not [None], and a note that is not [None] unless it has a bit rate.
    One kept record without format id makes the whole request fail;
    records the table drops are not looked at. A [formats] key holding
    [None] always makes the request fail. *)
Theorem catalog_succeeds_iff (i : info) :
  (i_formats i = Null → ∃ e, catalog i = Raise e)
  ∧ ∀ raw, raw_formats_of i = Some raw → raw ≠ [] →
      ((∃ r, catalog i = Ok r)
       ↔ i_title i ≠ Null ∧ Forall (λ f, kept f → well_formed f) raw).
Proof.
  split.
  - intros Hn. unfold catalog, unsorted_formats, raw_formats_of. rewrite Hn.
    destruct (truthy_str (get (i_url i))); [| simpl; eauto ].
    destruct (default_format i); simpl; eauto.
  - intros raw Hraw Hne. unfold catalog, unsorted_formats. rewrite Hraw.
    destruct raw as [|g raw]; [ done |]. cbn [mbind result_bind].
    rewrite <- (collect_ok_iff (g :: raw) []).
    destruct (collect (g :: raw) []) as [out|e]; simpl.
    + destruct (i_title i) as [| |t]; simpl.
      * split; [ intros _; split; [ done | eauto ] | eauto ].
      * split; [ intros [r H]; discriminate | by intros [? _] ].
      * split; [ intros _; split; [ done | eauto ] | eauto ].
    + split; [ intros [r H]; discriminate | intros [_ [out H]]; discriminate ].
Qed.

Lemma catalog_succeeds_iff_witness :
  ¬ ∃ r, catalog example_info_without_id = Ok r.
Proof.
  intros H.
  apply (proj2 (catalog_succeeds_iff example_info_without_id)
           example_raw_without_id eq_refl) in H; [| discriminate ].
  destruct H as [_ H].
  apply Forall_cons in H as [_ H]. apply Forall_cons in H as [H _].
  destruct H as [[s Hs] _]; [| discriminate ].
  unfold kept. vm_compute. discriminate.
Defined.

(* --------------------------------------------------------------------- *)
(** *** The files of a job *)
(* --------------------------------------------------------------------- *)

Section JobFiles.

Lemma append_inj_length (a b c d : string) :
  String.length a = String.length c → a +:+ b = c +:+ d → a = c ∧ b = d.
Proof.
  revert c. induction a as [|x a IH]; intros [|y c] Hlen H; simpl in *;
    try discriminate; [ done |].
  injection H as -> H. injection Hlen as Hlen.
  destruct (IH c Hlen H) as [-> ->]. done.
Qed.

Lemma length_slice_to n s :
  String.length (slice_to n s) = (n `min` String.length s)%nat.
Proof.
  unfold slice_to. by rewrite <- !length_chars, chars_text, length_take.
Qed.

Lemma job_files_differ j :
  j +:+ "_video.mp4" ≠ j +:+ "_audio.m4a"
  ∧ j +:+ "_video.mp4" ≠ j +:+ "_merged.mp4"
  ∧ j +:+ "_audio.m4a" ≠ j +:+ "_merged.mp4".
Proof.
  repeat split; intros [_ H]%append_inj_length; done.
Qed.

End JobFiles.

(** Property X9. The three files of a job have different names, and two
    jobs whose ids (the first 8 characters of their uuids) differ share no
    file name. *)
Theorem job_files_no_collision (uuid1 uuid2 : string) :
  (8 ≤ String.length uuid1)%nat → (8 ≤ String.length uuid2)%nat →
  slice_to 8 uuid1 ≠ slice_to 8 uuid2 →
  NoDup (job_files (slice_to 8 uuid1))
  ∧ ∀ name, name ∈ job_files (slice_to 8 uuid1) →
            name ∉ job_files (slice_to 8 uuid2).
Proof.
  intros H1 H2 Hne. split.
  - destruct (job_files_differ (slice_to 8 uuid1)) as (Hva & Hvo & Hao).
    unfold job_files. repeat constructor.
    + rewrite !elem_of_cons. intros [?|[?|?%elem_of_nil]]; done.
    + rewrite !elem_of_cons. intros [?|?%elem_of_nil]; done.
    + apply not_elem_of_nil.
  - assert (String.length (slice_to 8 uuid1) = String.length (slice_to 8 uuid2))
      as Hlen by (rewrite !length_slice_to; lia).
    unfold job_files. intros name Hin1 Hin2.
    rewrite !elem_of_cons in Hin1, Hin2.
    destruct Hin1 as [->|[->|[->|?%elem_of_nil]]]; [ | | | done ];
      destruct Hin2 as [H|[H|[H|?%elem_of_nil]]]; try done;
      apply append_inj_length in H as [? _]; done.
Qed.

Lemma job_files_no_collision_witness :
  NoDup (job_files (slice_to 8 example_uuid))
  ∧ ∀ name, name ∈ job_files (slice_to 8 example_uuid) →
            name ∉ job_files (slice_to 8 "89abcdef-0123-4567-89ab-cdef01234567").
Proof.
  apply (job_files_no_collision example_uuid
           "89abcdef-0123-4567-89ab-cdef01234567").
  - vm_compute. lia.
  - vm_compute. lia.
  - vm_compute. discriminate.
Defined.

(* --------------------------------------------------------------------- *)
(** *** More on download requests *)
(* --------------------------------------------------------------------- *)

Section DownloadMore.

Context (rt : runtime) (request : DownloadRequest).

Lemma unlink_if_exists_ok name fs :
  stuck (fs !! name) = false →
  ∃ fs', unlink_if_exists name fs = Ok fs'
         ∧ ∀ n, fs' !! n = if bool_decide (n = name) then None else fs !! n.
Proof.
  unfold unlink_if_exists, exists_, unlink, stuck. intros Hs.
  destruct (fs !! name) as [[m|f]|] eqn:E; [ done | |].
  - rewrite bool_decide_eq_true_2 by eauto. rewrite Hs.
    eexists. split; [ done |]. intros n. case_bool_decide as Hn.
    + subst n. apply lookup_delete_eq.
    + by apply lookup_delete_ne.
  - rewrite bool_decide_eq_false_2 by (by intros [? ?]).
    eexists. split; [ done |]. intros n. case_bool_decide as Hn; [| done ].
    by subst n.
Qed.

Lemma unlink_if_exists_stuck name fs :
  stuck (fs !! name) = true →
  unlink_if_exists name fs = Raise (Interp (OSError name)).
Proof.
  unfold unlink_if_exists, exists_, unlink, stuck. intros Hs.
  destruct (fs !! name) as [[m|f]|] eqn:E; [ | | done ];
    rewrite bool_decide_eq_true_2 by eauto; [ done |]. by rewrite Hs.
Qed.

(** The pipeline up to and including a combiner that succeeds. *)
Lemma pipeline_after_stages v a o cookie_file w i fs4 :
  stages_succeed rt request v a o cookie_file w i fs4 →
  ∃ w4 t,
    title_of i = Ok t
    ∧ fs w4 = fs4
    ∧ calls w4 = calls w ++ download_calls request
    ∧ pipeline rt request v a o cookie_file w
      = match unlink_if_exists v fs4 with
        | Raise e => (Raise e, w4)
        | Ok fs5 =>
            match unlink_if_exists a fs5 with
            | Raise e => (Raise e, with_fs w4 fs5)
            | Ok fs6 => (Ok t, with_fs w4 fs6)
            end
        end.
Proof.
  intros [fs1 fs2 fs3 stderr H1 Ht H2 H3 H4].
  destruct (title_of_ok i Ht) as [t Hti].
  eexists _, t. split; [ done |].
  unfold pipeline. rewrite H1. cbn [mbind result_bind]. rewrite Hti.
  cbn [fs with_fs called]. rewrite H2. cbn [fs with_fs called]. rewrite H3.
  cbn [fs with_fs called]. rewrite H4. cbn [negb Z.eqb fs with_fs called].
  split; [| split ]; [ | | reflexivity ].
  - done.
  - cbn [calls called with_fs]. unfold download_calls.
    by rewrite <- !app_assoc.
Qed.

End DownloadMore.

(** Property X10. When all stages of a download request succeed and the
    two intermediate files can be removed, the answer depends on the
    sanitized title. If none of its code points is above 255, the response
    streams the merged file with media type video/mp4; the video and audio
    files are gone from the workspace and every other entry (the merged
    file among them) is as the combiner left it. If it has a code point
    above 255, the headers of the response cannot be encoded: the answer is
    status 500 with the text of the encoding error, the video and audio
    files are gone, the merged file is removed as well if it can be, and
    every entry that is not a file of the job is as the combiner left it.
    In both cases the engine and the combiner were called in the order
    metadata, video, audio, combiner. *)
Theorem download_success (rt : runtime) (request : DownloadRequest)
  (uuid : string) (w : world) (cookie_file : option string) (w1 : world)
  (i : info) (fs4 : fsys) :
  let job_id := slice_to 8 uuid in
  let video_file := job_id +:+ "_video.mp4" in
  let audio_file := job_id +:+ "_audio.m4a" in
  let output_file := job_id +:+ "_merged.mp4" in
  let title := sanitize_filename (default (lit "video") (get (i_title i))) in
  cookies rt false w = (Ok cookie_file, w1) →
  stages_succeed rt request video_file audio_file output_file cookie_file
    w1 i fs4 →
  stuck (fs4 !! video_file) = false →
  stuck (fs4 !! audio_file) = false →
  (latin1 title = true →
   ∃ headers w',
     download_merged rt request uuid w
     = (StreamingResponse (Unstarted output_file) "video/mp4" headers, w')
     ∧ headers !! "Content-Type" = Some (lit "video/mp4")
     ∧ fs w' !! video_file = None
     ∧ fs w' !! audio_file = None
     ∧ (∀ name, name ≠ video_file → name ≠ audio_file →
                fs w' !! name = fs4 !! name)
     ∧ calls w' = calls w ++ download_calls request)
  ∧ (latin1 title = false →
     ∃ w',
       download_merged rt request uuid w
       = (HTTPException 500
            (exc_text rt
               (UnicodeEncodeError
                  (lit "attachment; filename=" ++ lit quote ++
                   (title ++ lit ".mp4") ++ lit quote))), w')
       ∧ fs w' !! video_file = None
       ∧ fs w' !! audio_file = None
       ∧ (deletable (fs4 !! output_file) = true →
          fs w' !! output_file = None)
       ∧ (∀ name, name ∉ job_files job_id → fs w' !! name = fs4 !! name)
       ∧ calls w' = calls w ++ download_calls request).
Proof.
  intros job_id video_file audio_file output_file title Hc Hs Hv Ha.
  destruct (job_files_differ job_id) as (Hva & Hvo & Hao).
  fold video_file audio_file output_file in Hva, Hvo, Hao.
  pose proof (cookies_calls rt false w) as Hcalls. rewrite Hc in Hcalls.
  simpl in Hcalls.
  destruct (pipeline_after_stages rt request _ _ _ _ _ _ _ Hs)
    as (w4 & t & Ht & Hfs & Hcl & Hp).
  apply title_of_inv in Ht as [_ Ht]. fold title in Ht. subst t.
  destruct (unlink_if_exists_ok video_file fs4 Hv) as (fs5 & H5 & L5).
  assert (stuck (fs5 !! audio_file) = false) as Ha5.
  { rewrite L5. by case_bool_decide. }
  destruct (unlink_if_exists_ok audio_file fs5 Ha5) as (fs6 & H6 & L6).
  rewrite H5, H6 in Hp. apply attempt_ok in Hp.
  unfold download_merged. fold job_id. fold video_file audio_file output_file.
  rewrite Hc, Hp.
  split; intros Hl; rewrite Hl.
  - eexists _, _. split; [ reflexivity |].
    cbn [fs with_fs calls]. split; [| split; [| split; [| split ]]].
    + rewrite lookup_insert_ne by done. apply lookup_insert_eq.
    + rewrite L6, L5. case_bool_decide; [ done |].
      by rewrite bool_decide_eq_true_2.
    + rewrite L6. by rewrite bool_decide_eq_true_2.
    + intros name Hnv Hna. rewrite L6, L5.
      by rewrite !bool_decide_eq_false_2.
    + by rewrite Hcl, Hcalls.
  - eexists. split; [ reflexivity |].
    cbn [fs with_fs calls]. split; [| split; [| split; [| split ]]].
    + rewrite purge_lookup, L6, L5.
      rewrite (bool_decide_eq_false_2 (video_file = audio_file)) by done.
      rewrite (bool_decide_eq_true_2 (video_file = video_file)) by done.
      by destruct (bool_decide _).
    + rewrite purge_lookup, L6.
      rewrite (bool_decide_eq_true_2 (audio_file = audio_file)) by done.
      by destruct (bool_decide _).
    + intros Hd. rewrite purge_lookup, L6, L5.
      rewrite (bool_decide_eq_false_2 (output_file = audio_file)) by done.
      rewrite (bool_decide_eq_false_2 (output_file = video_file)) by done.
      rewrite Hd. by rewrite bool_decide_eq_true_2 by (right; right; left).
    + intros name Hn. rewrite purge_lookup.
      rewrite (bool_decide_eq_false_2 _ Hn). cbn [andb].
      unfold job_files in Hn. fold video_file audio_file output_file in Hn.
      apply not_elem_of_cons in Hn as [Hnv Hn].
      apply not_elem_of_cons in Hn as [Hna _].
      rewrite L6, L5. by rewrite !bool_decide_eq_false_2.
    + by rewrite Hcl, Hcalls.
Qed.

Lemma download_success_witness :
  ∃ headers w',
    download_merged (example_runtime example_info false true 0 EmptyString)
      example_request example_uuid example_world
    = (StreamingResponse (Unstarted "01234567_merged.mp4") "video/mp4"
         headers, w')
    ∧ headers !! "Content-Type" = Some (lit "video/mp4")
    ∧ fs w' !! "01234567_video.mp4" = None
    ∧ fs w' !! "01234567_audio.m4a" = None
    ∧ (∀ name, name ≠ "01234567_video.mp4" → name ≠ "01234567_audio.m4a" →
               fs w' !! name
               = (<["01234567_merged.mp4" := example_file 10000 false]>
                  (<["01234567_audio.m4a" := example_file 10000 false]>
                   (<["01234567_video.mp4" := example_file 10000 false]>
                    (fs example_world)))) !! name)
    ∧ calls w' = calls example_world ++ download_calls example_request.
Proof.
  apply (download_success
           (example_runtime example_info false true 0 EmptyString)
           example_request example_uuid example_world None example_world
           example_info).
  - reflexivity.
  - eapply all_stages; try reflexivity. discriminate.
  - vm_compute. reflexivity.
  - vm_compute. reflexivity.
  - vm_compute. reflexivity.
Defined.

(** A title in another script: the request fails after the merged file was
    produced, and the merged file is removed. *)
Example wide_title_fails :
  let '(r, w) := download_merged
                   (example_runtime wide_title_info false true 0 EmptyString)
                   example_request example_uuid example_world in
  sanitize_filename [26144; 30011; 58; 65]%N = [26144; 30011; 65]%N
  ∧ r = HTTPException 500 "error"
  ∧ fs w !! "01234567_merged.mp4" = None
  ∧ calls w = download_calls example_request.
Proof. vm_compute. done. Qed.

(** Property X11. When the combiner has succeeded but removing the video
    file, or after it the audio file, raises, the request fails: status
    500 with the text of that error, although the merged file was
    produced; the merged file is then removed by the error handling if it
    can be. *)
Theorem download_fails_on_stuck_intermediate (rt : runtime)
  (request : DownloadRequest) (uuid : string) (w : world)
  (cookie_file : option string) (w1 : world) (i : info) (fs4 : fsys) :
  let job_id := slice_to 8 uuid in
  let video_file := job_id +:+ "_video.mp4" in
  let audio_file := job_id +:+ "_audio.m4a" in
  let output_file := job_id +:+ "_merged.mp4" in
  cookies rt false w = (Ok cookie_file, w1) →
  stages_succeed rt request video_file audio_file output_file cookie_file
    w1 i fs4 →
  stuck (fs4 !! video_file) = true ∨ stuck (fs4 !! audio_file) = true →
  ∃ name w',
    name ∈ [video_file; audio_file]
    ∧ download_merged rt request uuid w
      = (HTTPException 500 (exc_text rt (OSError name)), w')
    ∧ (deletable (fs4 !! output_file) = true → fs w' !! output_file = None).
Proof.
  intros job_id video_file audio_file output_file Hc Hs Hstuck.
  destruct (job_files_differ job_id) as (Hva & Hvo & Hao).
  fold video_file audio_file output_file in Hva, Hvo, Hao.
  destruct (pipeline_after_stages rt request _ _ _ _ _ _ _ Hs)
    as (w4 & t & Ht & Hfs & Hcl & Hp).
  destruct (stuck (fs4 !! video_file)) eqn:Hv.
  - rewrite (unlink_if_exists_stuck _ _ Hv) in Hp.
    pose proof (download_merged_raise rt request uuid w cookie_file w1 _ _
                  Hc Hp) as Hr.
    exists video_file. eexists. split; [ left |].
    split; [ exact Hr |].
    intros Hd. cbn [fs with_fs]. rewrite purge_lookup, Hfs, Hd.
    by rewrite bool_decide_eq_true_2 by (right; right; left).
  - destruct Hstuck as [?|Ha]; [ done |].
    destruct (unlink_if_exists_ok video_file fs4 Hv) as (fs5 & H5 & L5).
    assert (stuck (fs5 !! audio_file) = true) as Ha5.
    { rewrite L5. by rewrite bool_decide_eq_false_2. }
    rewrite H5, (unlink_if_exists_stuck _ _ Ha5) in Hp.
    pose proof (download_merged_raise rt request uuid w cookie_file w1 _ _
                  Hc Hp) as Hr.
    exists audio_file. eexists. split; [ right; left |].
    split; [ exact Hr |].
    intros Hd. cbn [fs with_fs]. rewrite purge_lookup, L5.
    rewrite (bool_decide_eq_false_2 (output_file = video_file)) by done.
    rewrite Hd. by rewrite bool_decide_eq_true_2 by (right; right; left).
Qed.

Lemma download_fails_on_stuck_intermediate_witness :
  ∃ name w',
    name ∈ ["01234567_video.mp4"; "01234567_audio.m4a"]
    ∧ download_merged (example_runtime example_info true true 0 EmptyString)
        example_request example_uuid example_world
      = (HTTPException 500 "error", w')
    ∧ (deletable
         ((<["01234567_merged.mp4" := example_file 10000 false]>
           (<["01234567_audio.m4a" := example_file 10000 false]>
            (<["01234567_video.mp4" := example_file 10000 true]>
             (fs example_world)))) !! "01234567_merged.mp4") = true →
       fs w' !! "01234567_merged.mp4" = None).
Proof.
  apply (download_fails_on_stuck_intermediate
           (example_runtime example_info true true 0 EmptyString)
           example_request example_uuid example_world None example_world
           example_info).
  - reflexivity.
  - eapply all_stages; try reflexivity. discriminate.
  - left. vm_compute. reflexivity.
Defined.

Section Cookies.

Context (rt : runtime).

Lemma pipeline_local_cookies request v a o cookie_file w b :
  pipeline rt request v a o cookie_file (with_local_cookies w b)
  = ((pipeline rt request v a o cookie_file w).1,
     with_local_cookies (pipeline rt request v a o cookie_file w).2 b).
Proof.
  unfold pipeline. cbn [fs with_local_cookies].
  destruct (extract_info rt _ _ _) as [r1 fs1].
  destruct (r1 ≫= title_of) as [t|]; [| done ]. cbn [fs with_fs called].
  destruct (download rt _ _ _) as [[[]|] fs2]; [| done ].
  cbn [fs with_fs called].
  destruct (download rt _ _ _) as [[[]|] fs3]; [| done ].
  cbn [fs with_fs called].
  destruct (run_ffmpeg rt _ _) as [[[rc stderr]|] fs4]; [| done ].
  destruct (negb (rc =? 0)); [ by destruct (decode rt stderr) |].
  cbn [fs with_fs called].
  destruct (unlink_if_exists v fs4) as [fs5|]; [| done ].
  by destruct (unlink_if_exists a fs5).
Qed.

Lemma attempt_local_cookies request v a o cookie_file w b :
  attempt rt request v a o cookie_file (with_local_cookies w b)
  = ((attempt rt request v a o cookie_file w).1,
     with_local_cookies (attempt rt request v a o cookie_file w).2 b).
Proof.
  unfold attempt. rewrite pipeline_local_cookies.
  by destruct (pipeline rt request v a o cookie_file w) as [[t|e] w2].
Qed.

(** The pipeline calls the engine with the options [opts_info] and
    [opts_stream] of its cookie file, and in no other way. *)
Lemma pipeline_engine rt' request v a o cookie_file w :
  same_but_engine rt rt' →
  (∀ u fs, extract_info rt (opts_info request cookie_file) u fs
           = extract_info rt' (opts_info request cookie_file) u fs) →
  (∀ selector name u fs,
     download rt (opts_stream rt request cookie_file selector name) u fs
     = download rt' (opts_stream rt request cookie_file selector name) u fs) →
  pipeline rt request v a o cookie_file w
  = pipeline rt' request v a o cookie_file w.
Proof.
  intros (Hf & Hd & _ & Ht) He Hs. unfold pipeline, ffmpeg_cmd.
  assert (∀ selector name, opts_stream rt' request cookie_file selector name
                           = opts_stream rt request cookie_file selector name)
    as Ho by (intros; unfold opts_stream, path_str; by rewrite Ht).
  rewrite !Ho, <- He, <- Hf, <- Hd. unfold path_str. rewrite <- Ht.
  destruct (extract_info rt _ _ _) as [r1 fs1].
  destruct (r1 ≫= title_of) as [t|]; [| done ].
  rewrite <- Hs. destruct (download rt _ _ _) as [[[]|] fs2]; [| done ].
  rewrite <- Hs. reflexivity.
Qed.


Lemma write_text_stuck name s now fs :
  stuck (fs !! name) = true →
  write_text name s now fs = Raise (Interp (OSError name)).
Proof.
  unfold write_text, stuck. destruct (fs !! name) as [[m|f]|]; [ done | | done ].
  by intros ->.
Qed.

Lemma stuck_not_deletable e : stuck e = true → deletable e = false.
Proof. destruct e as [[m|f]|]; simpl; [ done | | done ]. by intros ->. Qed.

End Cookies.

(** Property X12. A download request never looks for a local cookies.txt:
    its response is the same whether that file exists or not. Without a
    cookie text in the environment it calls the engine with no cookie
    file: it answers the same with any two engines that agree on every
    call whose options name no cookie file. A catalog request in such an
    environment, when the local cookies.txt exists, calls the engine with
    the options [opts_formats] naming cookies.txt: it answers the same with
    any two engines that agree on that call. *)
Theorem download_ignores_local_cookies :
  (∀ rt request uuid w b,
     download_merged rt request uuid (with_local_cookies w b)
     = ((download_merged rt request uuid w).1,
        with_local_cookies (download_merged rt request uuid w).2 b))
  ∧ (∀ rt rt' request uuid w,
       truthy_str (COOKIES_CONTENT w) = false →
       same_but_engine rt rt' →
       (∀ o u fs, o_cookiefile o = None →
                  extract_info rt o u fs = extract_info rt' o u fs) →
       (∀ o u fs, o_cookiefile o = None →
                  download rt o u fs = download rt' o u fs) →
       download_merged rt request uuid w = download_merged rt' request uuid w)
  ∧ (∀ rt rt' request w,
       truthy_str (COOKIES_CONTENT w) = false →
       local_cookies w = true →
       exc_text rt = exc_text rt' →
       (∀ fs, extract_info rt (opts_formats request (Some "cookies.txt"))
                (u_url request) fs
              = extract_info rt' (opts_formats request (Some "cookies.txt"))
                  (u_url request) fs) →
       get_formats rt request w = get_formats rt' request w).
Proof.
  split; [| split ].
  - intros rt request uuid w b. unfold download_merged, cookies.
    cbn [COOKIES_CONTENT fs now with_local_cookies andb].
    destruct (truthy_str (COOKIES_CONTENT w)).
    + destruct (write_text _ _ _ _) as [fs'|e]; [| done ].
      change (with_fs (with_local_cookies w b) fs')
        with (with_local_cookies (with_fs w fs') b).
      rewrite attempt_local_cookies.
      by destruct (attempt _ _ _ _ _ _ (with_fs w fs')) as [[r|e] w2].
    + rewrite attempt_local_cookies.
      by destruct (attempt _ _ _ _ _ _ w) as [[r|e] w2].
  - intros rt rt' request uuid w Hno Hsame He Hd.
    unfold download_merged, cookies, attempt. rewrite Hno. cbn [andb].
    rewrite (pipeline_engine rt rt') by (done || (intros; by auto)).
    destruct Hsame as (_ & _ & Hx & _). unfold str_exn. by rewrite Hx.
  - intros rt rt' request w Hno Hl Hx He.
    unfold get_formats, cookies.
    change (COOKIES_CONTENT (cleanup_old_files w)) with (COOKIES_CONTENT w).
    change (local_cookies (cleanup_old_files w)) with (local_cookies w).
    rewrite Hno, Hl. cbn [andb].
    change {| o_format := None; o_outtmpl := None; o_skip_download := true;
              o_quiet := false; o_no_warnings := false; o_logtostderr := true;
              o_proxy := proxy_opt (u_proxy request);
              o_cookiefile := Some "cookies.txt" |}
      with (opts_formats request (Some "cookies.txt")).
    rewrite He. unfold str_exn. by rewrite Hx.
Qed.

(** With a cookie file given to the catalog request only, an engine that
    needs cookies answers the catalog request and fails the download
    request. *)
Example cookies_catalog_only :
  let rt := {| extract_info := λ o _ fs,
                 (match o_cookiefile o with
                  | Some _ => Ok example_info
                  | None => Raise (EngineError "Sign in to confirm your age")
                  end, fs);
               download := λ _ _ fs, (Ok (), fs);
               run_ffmpeg := λ _ fs, (Ok (0, []), fs);
               decode := λ _, None;
               exc_text := λ _, "error";
               TEMP_DIR := "/tmp/anystreampro" |} in
  let w := with_local_cookies example_world true in
  (get_formats rt example_url_request w).1 = Formats example_catalog
  ∧ (download_merged rt example_request example_uuid w).1
    = HTTPException 500 "Sign in to confirm your age".
Proof. split; vm_compute; reflexivity. Qed.

(** Property X13. When the environment holds a cookie text and cookies.txt
    in the workspace cannot be written (it is a directory or a locked
    file), both handlers end with the unhandled error of [open]: the
    engine is not called, a download request leaves the world as it was
    and a catalog request has only run the sweep. *)
Theorem cookie_file_write_failure (rt : runtime) (w : world) :
  truthy_str (COOKIES_CONTENT w) = true →
  stuck (fs w !! "cookies.txt") = true →
  (∀ request uuid,
     download_merged rt request uuid w
     = (Unhandled (Interp (OSError "cookies.txt")), w))
  ∧ (∀ request,
       get_formats rt request w
       = (Unhandled (Interp (OSError "cookies.txt")), cleanup_old_files w)).
Proof.
  intros Henv Hs. split.
  - intros request uuid. unfold download_merged, cookies.
    by rewrite Henv, write_text_stuck.
  - intros request. unfold get_formats, cookies.
    change (COOKIES_CONTENT (cleanup_old_files w)) with (COOKIES_CONTENT w).
    rewrite Henv, write_text_stuck; [ done |].
    rewrite cleanup_old_files_lookup, (stuck_not_deletable _ Hs).
    by rewrite andb_false_r.
Qed.

Lemma cookie_file_write_failure_witness :
  (∀ request uuid,
     download_merged (example_runtime example_info false true 0 EmptyString)
       request uuid example_world_cookie_dir
     = (Unhandled (Interp (OSError "cookies.txt")), example_world_cookie_dir))
  ∧ (∀ request,
       get_formats (example_runtime example_info false true 0 EmptyString)
         request example_world_cookie_dir
       = (Unhandled (Interp (OSError "cookies.txt")),
          cleanup_old_files example_world_cookie_dir)).
Proof.
  apply (cookie_file_write_failure
           (example_runtime example_info false true 0 EmptyString)
           example_world_cookie_dir); reflexivity.
Defined.

(** Property X14. The error handling of a failed download request touches
    nothing but the three files of the job: every other entry of the
    workspace is as the failing stage left it. *)
Theorem failure_cleanup_only_job_files (rt : runtime)
  (request : DownloadRequest) (uuid : string) (w : world)
  (cookie_file : option string) (w1 : world) (e : exn) (w2 : world) :
  cookies rt false w = (Ok cookie_file, w1) →
  pipeline rt request (slice_to 8 uuid +:+ "_video.mp4")
    (slice_to 8 uuid +:+ "_audio.m4a") (slice_to 8 uuid +:+ "_merged.mp4")
    cookie_file w1 = (Raise e, w2) →
  ∀ name, name ∉ job_files (slice_to 8 uuid) →
    fs (download_merged rt request uuid w).2 !! name = fs w2 !! name.
Proof.
  intros Hc Hp name Hn.
  rewrite (download_merged_raise rt request uuid w cookie_file w1 e w2 Hc Hp).
  cbn [snd fs with_fs]. rewrite purge_lookup.
  by rewrite bool_decide_eq_false_2.
Qed.

Lemma failure_cleanup_only_job_files_witness :
  fs (download_merged
        (example_runtime example_info false true 2 "invalid data found")
        example_request example_uuid example_world).2 !! "old.bin"
  = fs (pipeline
          (example_runtime example_info false true 2 "invalid data found")
          example_request "01234567_video.mp4" "01234567_audio.m4a"
          "01234567_merged.mp4" None example_world).2 !! "old.bin".
Proof.
  apply (failure_cleanup_only_job_files
           (example_runtime example_info false true 2 "invalid data found")
           example_request example_uuid example_world None example_world
           (PlainException "FFmpeg failed: invalid data found")).
  - reflexivity.
  - vm_compute. reflexivity.
  - apply (bool_decide_unpack _). vm_compute. exact I.
Defined.

(* --------------------------------------------------------------------- *)
(** *** What the handlers answer, and in which order they call *)
(* --------------------------------------------------------------------- *)

Section Answers.

Context (rt : runtime).

(** The calls of the pipeline are those of the stages up to the first one
    that fails. *)
Lemma pipeline_calls_prefix request v a o cookie_file w :
  ∃ k, calls (pipeline rt request v a o cookie_file w).2
       = calls w ++ take k (download_calls request)
       ∧ stops_after rt request v a o cookie_file w k
       ∧ (∀ t, (pipeline rt request v a o cookie_file w).1 = Ok t → k = 4%nat).
Proof.
  unfold pipeline, download_calls.
  destruct (extract_info rt _ _ _) as [r1 fs1] eqn:H1.
  destruct (r1 ≫= title_of) as [t|e] eqn:Ht.
  2: { exists 1%nat. cbn. split; [ done |].
       split; [ by eapply stops_after_metadata | done ]. }
  destruct r1 as [i|]; [| discriminate ]. cbn in Ht.
  apply title_of_inv in Ht as [Hn _].
  cbn [fs with_fs called].
  destruct (download rt _ _ _) as [[[]|] fs2] eqn:H2.
  2: { exists 2%nat. cbn. rewrite <- app_assoc. split; [ done |].
       split; [ by eapply stops_after_video | done ]. }
  cbn [fs with_fs called].
  destruct (download rt _ _ fs2) as [[[]|] fs3] eqn:H3.
  2: { exists 3%nat. cbn. rewrite <- !app_assoc. split; [ done |].
       split; [ by eapply stops_after_audio | done ]. }
  cbn [fs with_fs called].
  exists 4%nat.
  assert (stops_after rt request v a o cookie_file w 4) as H4
    by (by eapply reaches_combiner).
  destruct (run_ffmpeg rt _ _) as [[[rc stderr]|] fs4].
  2: { cbn. rewrite <- !app_assoc. by split. }
  destruct (negb (rc =? 0)).
  { destruct (decode rt stderr); cbn; rewrite <- !app_assoc; by split. }
  cbn [fs with_fs called].
  destruct (unlink_if_exists v fs4) as [fs5|].
  2: { cbn. rewrite <- !app_assoc. by split. }
  destruct (unlink_if_exists a fs5) as [fs6|];
    cbn; rewrite <- !app_assoc; by split.
Qed.

(** The stage a request stops after is determined by the answers of the
    engine. *)
Lemma stops_after_functional request v a o cookie_file w k1 k2 :
  stops_after rt request v a o cookie_file w k1 →
  stops_after rt request v a o cookie_file w k2 →
  k1 = k2.
Proof.
  intros Ha Hb.
  destruct Ha, Hb; try reflexivity; exfalso; try congruence;
    match goal with
    | Hr : ?r ≫= title_of = Raise _, H1 : ?x = (?r, _),
      H1' : ?x = (Ok ?i, _), Ht : i_title ?i ≠ Null |- _ =>
        assert (r = Ok i) as -> by congruence;
        cbn in Hr; destruct (title_of_ok i Ht) as [t Hti]; congruence
    end.
Qed.

End Answers.

(** Property X15. A download request calls the engine and the combiner in
    the order metadata, video, audio, combiner, each at most once, and
    stops at the first stage that fails: when the cookie file cannot be
    written it makes no call; otherwise its calls are the first [k] of the
    four, where stage [k] is the first that fails, or [k] is 4 when the
    three stages before the combiner succeed ([stops_after]; that number
    is unique). It answers with the stream of the job's merged file, media
    type video/mp4, only after all four calls; with status 500 after at
    least the metadata call; and with an unhandled error without any call.
    It never answers with a catalog or with another status. *)
Theorem download_merged_answers (rt : runtime) (request : DownloadRequest)
  (uuid : string) (w : world) :
  ∃ k,
    calls (download_merged rt request uuid w).2
    = calls w ++ take k (download_calls request)
    ∧ match cookies rt false w with
      | (Raise _, _) => k = 0%nat
      | (Ok cookie_file, w1) =>
          stops_after rt request (slice_to 8 uuid +:+ "_video.mp4")
            (slice_to 8 uuid +:+ "_audio.m4a")
            (slice_to 8 uuid +:+ "_merged.mp4") cookie_file w1 k
          ∧ ∀ k', stops_after rt request (slice_to 8 uuid +:+ "_video.mp4")
                    (slice_to 8 uuid +:+ "_audio.m4a")
                    (slice_to 8 uuid +:+ "_merged.mp4") cookie_file w1 k' →
                  k' = k
      end
    ∧ match (download_merged rt request uuid w).1 with
      | StreamingResponse body media_type _ =>
          k = 4%nat
          ∧ body = Unstarted (slice_to 8 uuid +:+ "_merged.mp4")
          ∧ media_type = "video/mp4"
      | HTTPException status_code _ => status_code = 500 ∧ (1 ≤ k ≤ 4)%nat
      | Unhandled _ => k = 0%nat
      | Formats _ => False
      end.
Proof.
  pose proof (cookies_calls rt false w) as Hc.
  destruct (cookies rt false w) as [[cookie_file|e] w1] eqn:Hcookies;
    simpl in Hc.
  2: { exists 0%nat. unfold download_merged. rewrite Hcookies. cbn.
       by rewrite app_nil_r. }
  destruct (pipeline_calls_prefix rt request (slice_to 8 uuid +:+ "_video.mp4")
              (slice_to 8 uuid +:+ "_audio.m4a")
              (slice_to 8 uuid +:+ "_merged.mp4") cookie_file w1)
    as (k & Hk & Hs & Hok).
  exists k.
  assert (1 ≤ k ≤ 4)%nat as Hr by (destruct Hs; lia).
  rewrite <- attempt_world in Hk.
  split; [| split; [ split |]].
  - unfold download_merged. rewrite Hcookies.
    destruct (attempt _ _ _ _ _ _ _) as [[r|e] w2]; cbn in *;
      by rewrite Hk, Hc.
  - exact Hs.
  - intros k' Hs'. by eapply stops_after_functional.
  - destruct (download_merged rt request uuid w) as [r w'] eqn:Hd. cbn [fst].
    destruct r as [r|status_code detail|body media_type headers|e].
    + unfold download_merged in Hd. rewrite Hcookies in Hd.
      destruct (pipeline rt request (slice_to 8 uuid +:+ "_video.mp4")
                  (slice_to 8 uuid +:+ "_audio.m4a")
                  (slice_to 8 uuid +:+ "_merged.mp4") cookie_file w1)
        as [[t|e] w2] eqn:Hp.
      * rewrite (attempt_ok _ _ _ _ _ _ _ _ _ Hp) in Hd.
        destruct (latin1 t); discriminate.
      * rewrite (attempt_raise _ _ _ _ _ _ _ _ _ Hp) in Hd. discriminate.
    + unfold download_merged in Hd. rewrite Hcookies in Hd.
      destruct (attempt _ _ _ _ _ _ _) as [[r|e] w2] eqn:Ha.
      * injection Hd as -> ->. exfalso.
        destruct (pipeline rt request (slice_to 8 uuid +:+ "_video.mp4")
                    (slice_to 8 uuid +:+ "_audio.m4a")
                    (slice_to 8 uuid +:+ "_merged.mp4") cookie_file w1)
          as [[t|e] w3] eqn:Hp.
        -- rewrite (attempt_ok _ _ _ _ _ _ _ _ _ Hp) in Ha.
           destruct (latin1 t); discriminate.
        -- rewrite (attempt_raise _ _ _ _ _ _ _ _ _ Hp) in Ha. discriminate.
      * injection Hd as <- _ _. done.
    + apply download_merged_stream in Hd
        as (cookie_file' & w1' & t & Hc' & Hp & _ & -> & -> & _).
      rewrite Hcookies in Hc'. injection Hc' as <- <-.
      split; [| done ]. apply (Hok t). by rewrite Hp.
    + unfold download_merged in Hd. rewrite Hcookies in Hd.
      destruct (pipeline rt request (slice_to 8 uuid +:+ "_video.mp4")
                  (slice_to 8 uuid +:+ "_audio.m4a")
                  (slice_to 8 uuid +:+ "_merged.mp4") cookie_file w1)
        as [[t|e'] w2] eqn:Hp.
      * rewrite (attempt_ok _ _ _ _ _ _ _ _ _ Hp) in Hd.
        destruct (latin1 t); discriminate.
      * rewrite (attempt_raise _ _ _ _ _ _ _ _ _ Hp) in Hd. discriminate.
Qed.

(** The audio download fails: the combiner is not called. *)
Example stops_at_failed_audio :
  calls (download_merged (example_runtime example_info false false 0 EmptyString)
           example_request example_uuid example_world).2
  = [ Extracted "https://example.org/watch"; Downloaded "137";
      Downloaded "140" ].
Proof. vm_compute. reflexivity. Qed.

(** Property X16. A catalog request always runs the sweep first. It then
    answers with a catalog of status success, or with status 400 and a
    detail that starts with Extraction failed, in both cases after exactly
    one call of the engine; or with an unhandled error (the cookie file
    could not be written) without calling the engine. It never streams and
    never answers with another status. *)
Theorem get_formats_answers (rt : runtime) (request : URLRequest) (w : world) :
  match (get_formats rt request w).1 with
  | Formats r =>
      status r = "success"
      ∧ calls (get_formats rt request w).2
        = calls w ++ [Swept; Extracted (u_url request)]
  | HTTPException status_code detail =>
      status_code = 400
      ∧ (∃ e, detail = "Extraction failed: " +:+ str_exn rt e)
      ∧ calls (get_formats rt request w).2
        = calls w ++ [Swept; Extracted (u_url request)]
  | Unhandled _ => calls (get_formats rt request w).2 = calls w ++ [Swept]
  | StreamingResponse _ _ _ => False
  end.
Proof.
  unfold get_formats.
  pose proof (cookies_calls rt true (cleanup_old_files w)) as Hc.
  destruct (cookies rt true (cleanup_old_files w)) as [[cookie_file|e] w1];
    simpl in Hc; [| done ].
  destruct (extract_info rt _ _ _) as [r fs1].
  destruct (r ≫= catalog) as [resp|e] eqn:E; cbn [fst snd calls called with_fs];
    rewrite Hc, <- app_assoc.
  - split; [| done ].
    destruct r as [i|]; [| discriminate ]. cbn in E.
    by apply catalog_inv in E as (? & ? & _ & _ & ->).
  - split; [ done |]. split; [ eauto | done ].
Qed.

(** Property X17. The file name suggested by a successful download request
    is a sanitized title followed by .mp4: it holds no double quote, no
    slash or backslash and none of the other stripped characters, has at
    most 204 characters, and none of its code points is above 255. *)
Theorem suggested_filename_is_safe (rt : runtime) (request : DownloadRequest)
  (uuid : string) (w : world) (body : generator) (media_type : string)
  (headers : gmap string utext) (w' : world) :
  download_merged rt request uuid w
  = (StreamingResponse body media_type headers, w') →
  ∃ filename,
    headers !! "Content-Disposition"
    = Some (lit "attachment; filename=" ++ lit quote ++ filename ++ lit quote)
    ∧ (length filename ≤ 204)%nat
    ∧ (∀ c, c ∈ INVALID_CHARS → c ∉ filename)
    ∧ (∃ t, filename = t ++ lit ".mp4")
    ∧ latin1 filename = true.
Proof.
  intros H.
  apply download_merged_stream in H
    as (cookie_file & w1 & t & Hc & Hp & Hl & _ & _ & ->).
  apply pipeline_ok in Hp as (i & fs1 & _ & Ht).
  apply title_of_inv in Ht as [_ Ht].
  exists (t ++ lit ".mp4"). split; [ by rewrite lookup_insert_eq |].
  split; [| split; [| split; [ by exists t |] ]].
  - rewrite length_app. pose proof (length_sanitize_filename
                                      (default (lit "video") (get (i_title i)))).
    rewrite <- Ht in H. change (length (lit ".mp4")) with 4%nat. lia.
  - intros c Hbad [Hin|Hin]%elem_of_app.
    + pose proof (sanitize_filename_valid
                    (default (lit "video") (get (i_title i)))) as Hall.
      rewrite <- Ht, Forall_forall in Hall.
      by apply Hall, is_invalid_false in Hin.
    + revert Hbad. apply is_invalid_false.
      change (lit ".mp4") with [46; 109; 112; 52]%N in Hin.
      rewrite !elem_of_cons in Hin.
      destruct Hin as [->|[->|[->|[->|?%elem_of_nil]]]]; done.
  - by rewrite latin1_filename.
Qed.

Lemma suggested_filename_is_safe_witness :
  ∃ filename,
    (<["Content-Disposition" :=
         lit "attachment; filename=" ++ lit quote ++ lit "MyVideoTitle.mp4"
         ++ lit quote]>
     (<["Content-Type" := lit "video/mp4"]> ∅) : gmap string utext)
    !! "Content-Disposition"
    = Some (lit "attachment; filename=" ++ lit quote ++ filename ++ lit quote)
    ∧ (length filename ≤ 204)%nat
    ∧ (∀ c, c ∈ INVALID_CHARS → c ∉ filename)
    ∧ (∃ t, filename = t ++ lit ".mp4")
    ∧ latin1 filename = true.
Proof.
  apply (suggested_filename_is_safe
           (example_runtime example_info false true 0 EmptyString)
           example_request example_uuid example_world
           (Unstarted "01234567_merged.mp4") "video/mp4" _
           (download_merged
              (example_runtime example_info false true 0 EmptyString)
              example_request example_uuid example_world).2).
  vm_compute. reflexivity.
Defined.

(* --------------------------------------------------------------------- *)
(** *** More on the sweep *)
(* --------------------------------------------------------------------- *)

(** Property X18. The sweep only removes: the workspace after it is a part
    of the workspace before it, with every entry that is left unchanged.
    A second sweep at the same time removes nothing more. *)
Theorem sweep_only_removes (w : world) :
  fs (cleanup_old_files w) ⊆ fs w
  ∧ fs (cleanup_old_files (cleanup_old_files w)) = fs (cleanup_old_files w).
Proof.
  split.
  - apply map_subseteq_spec. intros name e.
    rewrite cleanup_old_files_lookup.
    by destruct (stale _ _ && deletable _).
  - apply map_eq. intros name. rewrite !cleanup_old_files_lookup.
    change (now (cleanup_old_files w)) with (now w).
    by destruct (stale (now w) (fs w !! name) && deletable (fs w !! name)) eqn:E;
      [| rewrite E ].
Qed.

(* --------------------------------------------------------------------- *)
(** *** More on the result streamer *)
(* --------------------------------------------------------------------- *)

(** Property X19. A consumer that reads the stream of an output file to
    the end leaves the generator finished and the workspace without that
    file, all other entries untouched (if the file cannot be removed the
    workspace is unchanged); a finished generator gives no more chunks. *)
Theorem complete_read_removes_output (fs : fsys) (output_file : string)
  (f : file) (n : nat) :
  fs !! output_file = Some (Regular f) →
  (length (content f) < n)%nat →
  ∃ chunks,
    consume n (Unstarted output_file) fs
    = (chunks, Finished, if locked f then fs else delete output_file fs)
    ∧ ∀ m fs', consume m Finished fs' = ([], Finished, fs').
Proof.
  intros Hf Hn. destruct n as [|n]; [ lia |].
  rewrite (consume_unstarted n output_file fs f Hf).
  destruct (consume_suspended (S n) output_file (content f) fs Hn)
    as (chunks & -> & _).
  exists chunks. split.
  - unfold try_unlink, unlink. rewrite Hf. by destruct (locked f).
  - by intros [|m] fs'.
Qed.

Lemma complete_read_removes_output_witness :
  ∃ chunks,
    consume 4 (Unstarted "01234567_merged.mp4")
      {["01234567_merged.mp4" := Regular short_file]}
    = (chunks, Finished,
       if locked short_file
       then {["01234567_merged.mp4" := Regular short_file]}
       else delete "01234567_merged.mp4"
              {["01234567_merged.mp4" := Regular short_file]})
    ∧ ∀ m fs', consume m Finished fs' = ([], Finished, fs').
Proof.
  apply (complete_read_removes_output _ _ short_file 4).
  - reflexivity.
  - unfold short_file. cbn [content length]. lia.
Defined.

(** Property X20. When the output file is not there, or is a directory, at
    the moment the stream is first read, that read raises the error of
    [open]: no chunk is delivered, the generator is finished and the
    workspace is unchanged. *)
Theorem stream_of_missing_file (fs : fsys) (output_file : string) (n : nat) :
  is_file output_file fs = false →
  next (Unstarted output_file) fs
  = (Raised (Interp (OSError output_file)), Finished, fs)
  ∧ consume (S n) (Unstarted output_file) fs = ([], Finished, fs).
Proof.
  unfold is_file. intros H. cbn [consume next].
  by destruct (fs !! output_file) as [[m|f]|].
Qed.

Lemma stream_of_missing_file_witness :
  next (Unstarted "01234567_merged.mp4") (fs example_world)
  = (Raised (Interp (OSError "01234567_merged.mp4")), Finished,
     fs example_world)
  ∧ consume 3 (Unstarted "01234567_merged.mp4") (fs example_world)
    = ([], Finished, fs example_world).
Proof.
  apply (stream_of_missing_file (fs example_world) "01234567_merged.mp4" 2).
  reflexivity.
Defined.

Section ChunkCount.

Lemma chunked_count rest chunks :
  chunked rest chunks →
  Z.of_nat (length chunks) = (Z.of_nat (length rest) + 1048575) / 1048576.
Proof.
  pose proof CHUNK_bytes as HC.
  revert rest.
  induction chunks as [|c chunks IH]; intros rest (Hcat & Hall & Hlast).
  - cbn [concat] in Hcat. subst rest. reflexivity.
  - cbn [concat] in Hcat. apply Forall_cons in Hall as [[Hc Hcl] Hall].
    assert (0 < length c)%nat as Hpos.
    { destruct c as [|b c]; [ exfalso; apply Hc; reflexivity |].
      cbn [length]. lia. }
    destruct chunks as [|c' chunks'].
    + cbn [concat] in Hcat. rewrite app_nil_r in Hcat. subst rest.
      cbn [length].
      apply Z.div_unique with (Z.of_nat (length c) - 1); lia.
    + assert (length c = CHUNK) as Hfull.
      { apply (Hlast 0%nat c); [ reflexivity | cbn [length]; lia ]. }
      assert (chunked (concat (c' :: chunks')) (c' :: chunks')) as Hrest.
      { split; [ reflexivity |]. split; [ exact Hall |].
        intros k x Hk Hlen. apply (Hlast (S k) x); [ exact Hk |].
        cbn [length] in Hlen |- *. lia. }
      specialize (IH _ Hrest). clear Hrest Hlast Hall.
      subst rest. rewrite length_app, Hfull.
      change (length (c :: c' :: chunks')) with (S (length (c' :: chunks'))).
      rewrite Nat2Z.inj_succ, IH, Nat2Z.inj_add, HC.
      replace (1048576 + Z.of_nat (length (concat (c' :: chunks'))) + 1048575)
        with (Z.of_nat (length (concat (c' :: chunks'))) + 1048575 + 1 * 1048576)
        by lia.
      rewrite Z.div_add by lia. lia.
Qed.

End ChunkCount.

(** Property X21. The stream of an output file of n bytes, read to the
    end, has n / 1048576 chunks, rounded up: none for an empty file. *)
Theorem streamer_chunk_count (fs : fsys) (output_file : string) (f : file)
  (n : nat) :
  fs !! output_file = Some (Regular f) →
  (length (content f) < n)%nat →
  Z.of_nat (length (consume n (Unstarted output_file) fs).1.1)
  = (Z.of_nat (length (content f)) + 1048575) / 1048576.
Proof.
  intros Hf Hn. destruct n as [|n]; [ lia |].
  rewrite (consume_unstarted n output_file fs f Hf).
  destruct (consume_suspended (S n) output_file (content f) fs Hn)
    as (chunks & -> & Hch).
  cbn [fst]. apply chunked_count. exact Hch.
Qed.

Lemma streamer_chunk_count_witness :
  Z.of_nat (length (consume 4 (Unstarted "01234567_merged.mp4")
                      {["01234567_merged.mp4" := Regular short_file]}).1.1)
  = (Z.of_nat (length (content short_file)) + 1048575) / 1048576.
Proof.
  apply (streamer_chunk_count _ _ short_file 4).
  - reflexivity.
  - unfold short_file. cbn [content length]. lia.
Defined.

(* --------------------------------------------------------------------- *)
(** *** The health check *)
(* --------------------------------------------------------------------- *)

(** Property X22. The health check always answers healthy and never
    raises: it reports ffmpeg as available exactly when the probe ran and
    left with status 0, and as not found otherwise, also when the probe
    cannot be started. *)
Theorem health_answers (rt : runtime) (w : world) :
  health_status (health rt w).1 = "healthy"
  ∧ (ffmpeg_status (health rt w).1 = "available"
     ↔ ∃ stderr fs',
         run_ffmpeg rt ["ffmpeg"; "-version"] (fs w) = (Ok (0, stderr), fs'))
  ∧ (ffmpeg_status (health rt w).1 ≠ "available" →
     ffmpeg_status (health rt w).1 = "not found")
  ∧ calls (health rt w).2 = calls w.
Proof.
  unfold health.
  destruct (run_ffmpeg rt _ _) as [[[rc stderr]|e] fs'] eqn:E; cbn.
  - destruct (rc =? 0) eqn:Hrc; (split; [ done |]); split.
    + apply Z.eqb_eq in Hrc as ->. split; [ eauto | done ].
    + split; [ done | done ].
    + split; [ done |]. intros (s & f' & [= -> _ _]). done.
    + done.
  - split; [ done |]. split; [| done ].
    split; [ done | by intros (s & f' & ?) ].
Qed.
